(** * 3BodyProblem.py: the physics core of the three-body simulator

    A shallow embedding of the class [ThreeBodySimulator] of
    [src/3BodyProblem.py] and the properties of its methods.

    Number model.  The program computes with numpy [float64] values; this
    development reads every arithmetic operation in exact arithmetic, over
    the real numbers [R].  A real number is never infinite or NaN.  Where
    numpy answers with [inf]/[nan] and a [RuntimeWarning] and goes on (a
    division by a run-time zero, the logarithm of a non-positive number,
    the mean of an empty array), the computation has no real value, and
    the embedding stops there with [FloatingPointError].  That outcome is
    a limit of the embedding, not an exception of the program: the
    theorems about the methods are stated where every divisor is
    different from zero, and what [get_energy] returns at a zero divisor
    is modelled with numpy's special values in the module [Ieee].
    Divisions by literal, non-zero constants ([dt/6],
    [time/(DAY*365.25)], the module-level [G_scaled]) are plain real
    divisions.

    Shape model.  An array of shape (n,2) is a list of n rows [vec2]; an
    array of shape (n,) is a list of n reals.  An index out of range
    raises [IndexError].  An elementwise operation on two arrays with
    different row counts raises [ValueError]; numpy does so unless one of
    the two has exactly one row, which it broadcasts.  Broadcasting is not
    modelled: no array that the simulator builds has a row count other
    than that of [positions], and the theorems are stated for shapes that
    numpy does not broadcast. *)

From Stdlib Require Import String ZArith Bool Arith List Reals Lra Lia.
Import ListNotations.
Local Open Scope R_scope.

#[local] Arguments pow : simpl never.

(** ** Exceptions and results *)

Inductive exn : Type :=
| ValueError
| IndexError
| TypeError
| FloatingPointError.

Inductive result (A : Type) : Type :=
| Ok (a : A)
| Raise (e : exn).

Arguments Ok {A} a.
Arguments Raise {A} e.

Definition rbind {A B : Type} (r : result A) (k : A -> result B) : result B :=
  match r with
  | Ok a => k a
  | Raise e => Raise e
  end.

Declare Scope result_scope.
Delimit Scope result_scope with result.
Notation "x <~ e ;; k" := (rbind e (fun x => k))
  (at level 61, e at next level, right associativity) : result_scope.
Notation "' p <~ e ;; k" := (rbind e (fun x => let p := x in k))
  (at level 61, p pattern, e at next level, right associativity) : result_scope.
Local Open Scope result_scope.

(** ** Module-level constants (lines 6-18) *)

Definition G : R := 6.67430e-11.
Definition AU : R := 1.496e11.
Definition SOLAR_MASS : R := 1.989e30.
Definition DAY : R := 24 * 3600.

Definition MASS_SCALE : R := SOLAR_MASS.
Definition DISTANCE_SCALE : R := AU.
Definition TIME_SCALE : R := DAY * 1.

Definition G_scaled : R :=
  G * MASS_SCALE * (TIME_SCALE ^ 2) / (DISTANCE_SCALE ^ 3).

(** ** Two-dimensional vectors: the rows of a (n,2) array *)

Record vec2 : Type := V2 { vx : R; vy : R }.

Definition vzero : vec2 := V2 0 0.
Definition vadd (a b : vec2) : vec2 := V2 (vx a + vx b) (vy a + vy b).
Definition vsub (a b : vec2) : vec2 := V2 (vx a - vx b) (vy a - vy b).
Definition vscale (c : R) (a : vec2) : vec2 := V2 (c * vx a) (c * vy a).
Definition vsquare (a : vec2) : vec2 := V2 (vx a ^ 2) (vy a ^ 2).

(** [np.linalg.norm] of a row. *)
Definition norm (a : vec2) : R := sqrt (vx a ^ 2 + vy a ^ 2).

(** Division by a value known only at run time. *)
Definition np_div (a b : R) : result R :=
  if Req_dec_T b 0 then Raise FloatingPointError else Ok (a / b).

Definition vdiv (a : vec2) (c : R) : result vec2 :=
  x <~ np_div (vx a) c ;;
  y <~ np_div (vy a) c ;;
  Ok (V2 x y).

(** [np.log] of a scalar. *)
Definition np_log (a : R) : result R :=
  if Rlt_dec 0 a then Ok (ln a) else Raise FloatingPointError.

(** ** Arrays *)

Definition array : Type := list vec2.

Fixpoint zip_with {A B C : Type} (f : A -> B -> C) (a : list A) (b : list B)
  : list C :=
  match a, b with
  | x :: a', y :: b' => f x y :: zip_with f a' b'
  | _, _ => []
  end.

(** An elementwise operation of two arrays with the same number of rows. *)
Definition elementwise {A B C : Type} (f : A -> B -> C) (a : list A)
  (b : list B) : result (list C) :=
  if Nat.eqb (length a) (length b) then Ok (zip_with f a b)
  else Raise ValueError.

Definition arr_add (a b : array) : result array := elementwise vadd a b.
Definition arr_scale (c : R) (a : array) : array := map (vscale c) a.

(** [m[:, np.newaxis] * a]: row i of [a] scaled by [m[i]]. *)
Definition rows_scale (m : list R) (a : array) : result array :=
  elementwise vscale m a.

Definition np_sum (l : list R) : R := fold_right Rplus 0 l.
(** [np.sum(a, axis=0)] *)
Definition sum_axis0 (a : array) : vec2 := fold_right vadd vzero a.
(** [np.sum(a)] of a (n,2) array: the sum of all its entries. *)
Definition sum_all (a : array) : R := np_sum (map (fun v => vx v + vy v) a).

Definition np_zeros (n : nat) : array := repeat vzero n.

Definition getitem {A : Type} (l : list A) (i : nat) : result A :=
  match nth_error l i with
  | Some x => Ok x
  | None => Raise IndexError
  end.

Fixpoint set_nth {A : Type} (l : list A) (i : nat) (x : A) : list A :=
  match l, i with
  | [], _ => []
  | _ :: l', O => x :: l'
  | y :: l', S i' => y :: set_nth l' i' x
  end.

Definition setitem {A : Type} (l : list A) (i : nat) (x : A)
  : result (list A) :=
  if Nat.ltb i (length l) then Ok (set_nth l i x) else Raise IndexError.

Definition range (n : nat) : list nat := seq 0 n.

(** [for i in l: st = body(i, st)], stopping at the first exception. *)
Fixpoint for_in {S : Type} (l : list nat) (body : nat -> S -> result S)
  (st : S) : result S :=
  match l with
  | [] => Ok st
  | i :: l' => st' <~ body i st ;; for_in l' body st'
  end.

(** ** [collections.deque] with a [maxlen] *)

Record deque (A : Type) : Type := Deque { maxlen : nat; items : list A }.
Arguments Deque {A} maxlen items.
Arguments maxlen {A} d.
Arguments items {A} d.

Definition deque_new {A : Type} (n : nat) : deque A := Deque n [].

(** [d.append(x)]: the oldest items leave once [maxlen] is exceeded. *)
Definition append {A : Type} (d : deque A) (x : A) : deque A :=
  let l := (items d ++ [x])%list in
  Deque (maxlen d) (skipn (length l - maxlen d) l).

Definition len {A : Type} (d : deque A) : nat := length (items d).

(** ** The simulator object *)

(** [self.chaos_data]: a dict with the three literal keys ['times'],
    ['separations'] and ['lyapunov']. *)
Record chaos : Type := Chaos {
  times : deque R;
  separations : deque R;
  lyapunov : deque R
}.

Record ThreeBodySimulator : Type := Sim {
  masses : list R;
  positions : array;
  velocities : array;
  trajectory_length : nat;
  trajectories : list (deque vec2);
  dt : R;
  time : R;
  chaos_data : chaos;
  initial_separation : R;
  colors : list string;
  sizes : list Z
}.

Definition set_masses (m : list R) (self : ThreeBodySimulator) :=
  Sim m (positions self) (velocities self) (trajectory_length self)
      (trajectories self) (dt self) (time self) (chaos_data self)
      (initial_separation self) (colors self) (sizes self).

Definition set_positions (p : array) (self : ThreeBodySimulator) :=
  Sim (masses self) p (velocities self) (trajectory_length self)
      (trajectories self) (dt self) (time self) (chaos_data self)
      (initial_separation self) (colors self) (sizes self).

Definition set_velocities (v : array) (self : ThreeBodySimulator) :=
  Sim (masses self) (positions self) v (trajectory_length self)
      (trajectories self) (dt self) (time self) (chaos_data self)
      (initial_separation self) (colors self) (sizes self).

Definition set_trajectory_length (n : nat) (self : ThreeBodySimulator) :=
  Sim (masses self) (positions self) (velocities self) n
      (trajectories self) (dt self) (time self) (chaos_data self)
      (initial_separation self) (colors self) (sizes self).

Definition set_trajectories (t : list (deque vec2))
  (self : ThreeBodySimulator) :=
  Sim (masses self) (positions self) (velocities self)
      (trajectory_length self) t (dt self) (time self) (chaos_data self)
      (initial_separation self) (colors self) (sizes self).

Definition set_dt (d : R) (self : ThreeBodySimulator) :=
  Sim (masses self) (positions self) (velocities self)
      (trajectory_length self) (trajectories self) d (time self)
      (chaos_data self) (initial_separation self) (colors self) (sizes self).

Definition set_time (t : R) (self : ThreeBodySimulator) :=
  Sim (masses self) (positions self) (velocities self)
      (trajectory_length self) (trajectories self) (dt self) t
      (chaos_data self) (initial_separation self) (colors self) (sizes self).

Definition set_chaos_data (c : chaos) (self : ThreeBodySimulator) :=
  Sim (masses self) (positions self) (velocities self)
      (trajectory_length self) (trajectories self) (dt self) (time self) c
      (initial_separation self) (colors self) (sizes self).

Definition set_initial_separation (d : R) (self : ThreeBodySimulator) :=
  Sim (masses self) (positions self) (velocities self)
      (trajectory_length self) (trajectories self) (dt self) (time self)
      (chaos_data self) d (colors self) (sizes self).

Definition set_colors (c : list string) (self : ThreeBodySimulator) :=
  Sim (masses self) (positions self) (velocities self)
      (trajectory_length self) (trajectories self) (dt self) (time self)
      (chaos_data self) (initial_separation self) c (sizes self).

Definition set_sizes (z : list Z) (self : ThreeBodySimulator) :=
  Sim (masses self) (positions self) (velocities self)
      (trajectory_length self) (trajectories self) (dt self) (time self)
      (chaos_data self) (initial_separation self) (colors self) z.

(** ** Methods: computations on [self] that may raise *)

Definition M (A : Type) : Type :=
  ThreeBodySimulator -> result (A * ThreeBodySimulator).

Definition ret {A : Type} (a : A) : M A := fun self => Ok (a, self).

Definition bind {A B : Type} (m : M A) (k : A -> M B) : M B :=
  fun self =>
    match m self with
    | Ok (a, self') => k a self'
    | Raise e => Raise e
    end.

(** Read an attribute of [self]. *)
Definition gets {A : Type} (f : ThreeBodySimulator -> A) : M A :=
  fun self => Ok (f self, self).

(** Assign an attribute of [self]. *)
Definition modify (f : ThreeBodySimulator -> ThreeBodySimulator) : M unit :=
  fun self => Ok (tt, f self).

(** The value of an expression that reads no attribute. *)
Definition lift {A : Type} (r : result A) : M A :=
  fun self =>
    match r with
    | Ok a => Ok (a, self)
    | Raise e => Raise e
    end.

Declare Scope method_scope.
Delimit Scope method_scope with method.
Notation "x <- e ;; k" := (bind e (fun x => k))
  (at level 61, e at next level, right associativity) : method_scope.
Notation "' p <- e ;; k" := (bind e (fun x => let p := x in k))
  (at level 61, p pattern, e at next level, right associativity)
  : method_scope.
Notation "e ;;; k" := (bind e (fun _ => k))
  (at level 61, right associativity) : method_scope.

(** ** Force model: [compute_accelerations] (lines 74-87) *)

(** Line 83. *)
Definition softening : R := 0.0001 * DISTANCE_SCALE.

(** Lines 80-86, the body of the inner loop for one ordered pair: the
    term [force_magnitude * r_vec] that is added to [accelerations[i]]. *)
Definition pair_acceleration (m : list R) (p : array) (i j : nat)
  : result vec2 :=
  pj <~ getitem p j ;;
  pi <~ getitem p i ;;
  let r_vec := vsub pj pi in
  let distance := norm r_vec in
  let distance_softened := sqrt (distance ^ 2 + softening ^ 2) in
  mj <~ getitem m j ;;
  force_magnitude <~ np_div (G_scaled * mj) (distance_softened ^ 3) ;;
  Ok (vscale force_magnitude r_vec).

(** [accelerations[i] += a] *)
Definition iadd_row (accelerations : array) (i : nat) (a : vec2)
  : result array :=
  old <~ getitem accelerations i ;;
  setitem accelerations i (vadd old a).

(** Lines 79-86: one pass through the body of the inner loop. *)
Definition accumulate_pair (m : list R) (p : array) (i j : nat)
  (accelerations : array) : result array :=
  if negb (Nat.eqb i j) then
    a <~ pair_acceleration m p i j ;;
    iadd_row accelerations i a
  else Ok accelerations.

(** The two nested loops over the accumulator [accelerations]. *)
Definition accelerations_of (m : list R) (p : array) : result array :=
  let n := length p in
  for_in (range n) (fun i accelerations =>
    for_in (range n) (accumulate_pair m p i) accelerations) (np_zeros n).

Definition compute_accelerations : M array :=
  fun self =>
    accelerations <~ accelerations_of (masses self) (positions self) ;;
    Ok (accelerations, self).

(** ** RK4 integrator: [update_system] (lines 89-115) *)

(** An array value of the program is a reference.  Two arrays of the
    simulator are mutated in place, [self.positions] and [self.velocities];
    every other array is built once by an expression and never written to
    again.  A reference to one of the two attributes is read at the time it
    is used. *)
Inductive ndarray : Type :=
| SelfPositions
| SelfVelocities
| Fresh (a : array).

Definition deref (self : ThreeBodySimulator) (r : ndarray) : array :=
  match r with
  | SelfPositions => positions self
  | SelfVelocities => velocities self
  | Fresh a => a
  end.

Local Open Scope method_scope.

(** [self.positions[:] = a] *)
Definition assign_positions (a : array) : M unit :=
  fun self =>
    if Nat.eqb (length a) (length (positions self))
    then Ok (tt, set_positions a self)
    else Raise ValueError.

(** The inner function [derivatives(pos, vel)] (lines 91-96).  It returns
    the very object [vel] it was given. *)
Definition derivatives (pos vel : ndarray) : M (ndarray * ndarray) :=
  old_pos <- gets positions ;;
  a <- gets (fun self => deref self pos) ;;
  assign_positions a ;;;
  acc <- compute_accelerations ;;
  assign_positions old_pos ;;;
  ret (vel, Fresh acc).

(** The expression [base + c*k], a new array. *)
Definition plus_scaled (base : ndarray) (c : R) (k : ndarray) : M ndarray :=
  fun self =>
    (a <~ arr_add (deref self base) (arr_scale c (deref self k)) ;;
     Ok (Fresh a, self))%result.

(** The expression [k1 + 2*k2 + 2*k3 + k4], a new array. *)
Definition weighted_sum (k1 k2 k3 k4 : ndarray) : M array :=
  fun self =>
    (a <~ arr_add (deref self k1) (arr_scale 2 (deref self k2)) ;;
     b <~ arr_add a (arr_scale 2 (deref self k3)) ;;
     c <~ arr_add b (deref self k4) ;;
     Ok (c, self))%result.

(** [self.positions += a] *)
Definition iadd_positions (a : array) : M unit :=
  fun self =>
    (p <~ arr_add (positions self) a ;; Ok (tt, set_positions p self))%result.

(** [self.velocities += a] *)
Definition iadd_velocities (a : array) : M unit :=
  fun self =>
    (v <~ arr_add (velocities self) a ;; Ok (tt, set_velocities v self))%result.

(** Lines 112-113. *)
Definition store_trajectories : M unit :=
  fun self =>
    (self' <~ for_in (range (length (positions self))) (fun i self =>
        t <~ getitem (trajectories self) i ;;
        p <~ getitem (positions self) i ;;
        ts <~ setitem (trajectories self) i (append t p) ;;
        Ok (set_trajectories ts self)) self ;;
     Ok (tt, self'))%result.

(** ** Chaos analyzer: [analyze_chaos] (lines 117-131) *)

Definition Rgtb (a b : R) : bool := if Rlt_dec b a then true else false.

Fixpoint map_result {A B : Type} (f : A -> result B) (l : list A)
  : result (list B) :=
  match l with
  | [] => Ok []
  | x :: l' => (y <~ f x ;; ys <~ map_result f l' ;; Ok (y :: ys))%result
  end.

(** [np.diff]: [out[k] = a[k+1] - a[k]]. *)
Definition np_diff (l : list R) : list R := zip_with Rminus (tl l) l.

Definition np_mean (l : list R) : result R :=
  np_div (np_sum l) (INR (length l)).

(** Lines 122-131: the value appended to ['lyapunov'], from the items of
    the ['separations'] deque after the append of line 120. *)
Definition lyapunov_estimate (separations : list R) : result R :=
  if Nat.ltb 10 (length separations) then
    let valid_separations := filter (fun x => Rgtb x 1e-10) separations in
    if Nat.ltb 5 (length valid_separations) then
      (logs <~ map_result np_log valid_separations ;;
       np_mean (np_diff logs))%result
    else Ok 0
  else Ok 0.

Definition analyze_chaos : M unit :=
  fun self =>
    (p1 <~ getitem (positions self) 1 ;;
     p2 <~ getitem (positions self) 2 ;;
     let current_separation := norm (vsub p1 p2) in
     let c := chaos_data self in
     let times' := append (times c) (time self / (DAY * 365.25)) in
     ratio <~ np_div current_separation (initial_separation self) ;;
     let separations' := append (separations c) ratio in
     value <~ lyapunov_estimate (items separations') ;;
     let lyapunov' := append (lyapunov c) value in
     Ok (tt, set_chaos_data (Chaos times' separations' lyapunov') self))%result.

Definition update_system : M unit :=
  '(k1_pos, k1_vel) <- derivatives SelfPositions SelfVelocities ;;
  h <- gets dt ;;
  p2 <- plus_scaled SelfPositions (0.5 * h) k1_pos ;;
  v2 <- plus_scaled SelfVelocities (0.5 * h) k1_vel ;;
  '(k2_pos, k2_vel) <- derivatives p2 v2 ;;
  p3 <- plus_scaled SelfPositions (0.5 * h) k2_pos ;;
  v3 <- plus_scaled SelfVelocities (0.5 * h) k2_vel ;;
  '(k3_pos, k3_vel) <- derivatives p3 v3 ;;
  p4 <- plus_scaled SelfPositions h k3_pos ;;
  v4 <- plus_scaled SelfVelocities h k3_vel ;;
  '(k4_pos, k4_vel) <- derivatives p4 v4 ;;
  dp <- weighted_sum k1_pos k2_pos k3_pos k4_pos ;;
  iadd_positions (arr_scale (h / 6) dp) ;;;
  dv <- weighted_sum k1_vel k2_vel k3_vel k4_vel ;;
  iadd_velocities (arr_scale (h / 6) dv) ;;;
  modify (fun self => set_time (time self + dt self) self) ;;;
  store_trajectories ;;;
  analyze_chaos.

(** ** Energy monitor: [get_energy] (lines 133-140) *)

(** [range(a, b)] *)
Definition range_from (a b : nat) : list nat := seq a (b - a).

(** Lines 138-139: one pass through the body of the inner loop. *)
Definition subtract_pair (m : list R) (p : array) (i j : nat)
  (potential : R) : result R :=
  pj <~ getitem p j ;;
  pi <~ getitem p i ;;
  let r := norm (vsub pj pi) in
  mi <~ getitem m i ;;
  mj <~ getitem m j ;;
  q <~ np_div (G_scaled * mi * mj) r ;;
  Ok (potential - q).

(** Lines 137-139: the inner loop for one [i]. *)
Definition subtract_pairs_from (m : list R) (p : array) (i : nat)
  (potential : R) : result R :=
  for_in (range_from (i + 1) (length m)) (subtract_pair m p i) potential.

Definition get_energy : M R :=
  fun self =>
    (mv <~ rows_scale (masses self) (map vsquare (velocities self)) ;;
     let kinetic := 0.5 * sum_all mv in
     potential <~ for_in (range (length (masses self)))
                    (subtract_pairs_from (masses self) (positions self)) 0 ;;
     Ok (kinetic + potential, self))%result.

(** ** Body state store: [adjust_center_of_mass] (lines 66-72) *)

Definition adjust_center_of_mass : M unit :=
  fun self =>
    (let total_mass := np_sum (masses self) in
     mp <~ rows_scale (masses self) (positions self) ;;
     com_pos <~ vdiv (sum_axis0 mp) total_mass ;;
     mv <~ rows_scale (masses self) (velocities self) ;;
     com_vel <~ vdiv (sum_axis0 mv) total_mass ;;
     let self1 :=
       set_positions (map (fun p => vsub p com_pos) (positions self)) self in
     Ok (tt,
         set_velocities
           (map (fun v => vsub v com_vel) (velocities self1)) self1))%result.

(** ** Construction: [__init__] (lines 21-64) *)

(** [np.array(rows) * c] *)
Definition arr_times (a : array) (c : R) : array :=
  map (fun v => V2 (vx v * c) (vy v * c)) a.

(** The object before [__init__] has assigned any attribute. *)
Definition blank : ThreeBodySimulator :=
  Sim [] [] [] 0 [] 0 0
      (Chaos (deque_new 0) (deque_new 0) (deque_new 0)) 0 [] [].

Definition init : M unit :=
  modify (set_masses (map (fun m => m * MASS_SCALE) [1.0; 0.1; 0.05])) ;;;
  modify (set_positions
            (arr_times [V2 0.0 0.0; V2 1.5 0.0; V2 0.75 1.3]
               DISTANCE_SCALE)) ;;;
  modify (set_velocities
            (arr_times [V2 0.0 1.0; V2 0.0 (-3.0); V2 (-2.5) 1.5]
               (sqrt (G_scaled * MASS_SCALE / DISTANCE_SCALE)))) ;;;
  adjust_center_of_mass ;;;
  modify (set_trajectory_length 500) ;;;
  n <- gets trajectory_length ;;
  modify (set_trajectories (map (fun _ => deque_new n) (range 3))) ;;;
  modify (set_dt (TIME_SCALE * 100)) ;;;
  modify (set_time 0.0) ;;;
  modify (set_chaos_data
            (Chaos (deque_new 1000) (deque_new 1000) (deque_new 1000))) ;;;
  p1 <- (fun self => lift (getitem (positions self) 1) self) ;;
  p2 <- (fun self => lift (getitem (positions self) 2) self) ;;
  modify (set_initial_separation (norm (vsub p1 p2))) ;;;
  modify (set_colors ["gold"; "red"; "blue"]%string) ;;;
  modify (set_sizes [20; 15; 12]%Z).

(** A Python value passed as an argument of a call. *)
Inductive pyvalue : Type :=
| PyFloat (x : R)
| PyVector (a : list R)
| PyMatrix (a : array).

(** The call of the class with the positional arguments [args]:
    [__init__(self)] has no parameter besides [self], and Python refuses a
    call with any other argument before the body runs. *)
Definition ThreeBodySimulator_new (args : list pyvalue)
  : result ThreeBodySimulator :=
  match args with
  | [] => ('(_, self) <~ init blank ;; Ok self)%result
  | _ :: _ => Raise TypeError
  end.

(** [n] calls of [update_system]. *)
Fixpoint run (n : nat) : M unit :=
  match n with
  | O => ret tt
  | S n' => update_system ;;; run n'
  end.

(** * [get_energy] with numpy's special values

    Line 139 divides by the distance [r] of two bodies, which is zero when
    they are at the same position.  numpy then yields [inf], [-inf] or
    [nan] and the method goes on.  This module follows [get_energy] with
    those values: a number is a real or one of the three special values,
    and the operations of lines 139-140 follow IEEE 754 on them (finite
    operands are combined exactly). *)
Module Ieee.

Inductive xreal : Type :=
| Fin (r : R)
| PInf
| NInf
| NaN.

Definition finite (x : xreal) : bool :=
  match x with
  | Fin _ => true
  | _ => false
  end.

(** [a / b] of two finite numbers: a non-zero number over zero is an
    infinity of its sign (the divisor, a norm, is a positive zero), zero
    over zero is [nan]. *)
Definition div (a b : R) : xreal :=
  if Req_dec_T b 0 then
    if Req_dec_T a 0 then NaN
    else if Rlt_dec 0 a then PInf else NInf
  else Fin (a / b).

(** [x - y] *)
Definition sub (x y : xreal) : xreal :=
  match x, y with
  | Fin a, Fin b => Fin (a - b)
  | Fin _, PInf => NInf
  | Fin _, NInf => PInf
  | PInf, Fin _ => PInf
  | PInf, NInf => PInf
  | NInf, Fin _ => NInf
  | NInf, PInf => NInf
  | _, _ => NaN
  end.

(** [x + y] *)
Definition add (x y : xreal) : xreal :=
  match x, y with
  | Fin a, Fin b => Fin (a + b)
  | Fin _, PInf => PInf
  | Fin _, NInf => NInf
  | PInf, Fin _ => PInf
  | PInf, PInf => PInf
  | NInf, Fin _ => NInf
  | NInf, NInf => NInf
  | _, _ => NaN
  end.

(** Lines 138-139: one pass through the body of the inner loop. *)
Definition subtract_pair (m : list R) (p : array) (i j : nat)
  (potential : xreal) : result xreal :=
  pj <~ getitem p j ;;
  pi <~ getitem p i ;;
  let r := norm (vsub pj pi) in
  mi <~ getitem m i ;;
  mj <~ getitem m j ;;
  Ok (sub potential (div (G_scaled * mi * mj) r)).

(** Lines 137-139: the inner loop for one [i]. *)
Definition subtract_pairs_from (m : list R) (p : array) (i : nat)
  (potential : xreal) : result xreal :=
  for_in (range_from (i + 1) (length m)) (subtract_pair m p i) potential.

Definition get_energy : M xreal :=
  fun self =>
    (mv <~ rows_scale (masses self) (map vsquare (velocities self)) ;;
     let kinetic := 0.5 * sum_all mv in
     potential <~ for_in (range (length (masses self)))
                    (subtract_pairs_from (masses self) (positions self))
                    (Fin 0) ;;
     Ok (add (Fin kinetic) potential, self))%result.

End Ieee.

(** * The animation driver (lines 210-285)

    The module keeps one simulator and four rolling buffers, and
    [animate] advances them once per frame.  The statements of [animate]
    that only hand values to matplotlib artists ([set_data], [relim],
    [autoscale_view], [set_text] and the expressions that build their
    arguments) write to no buffer and to no attribute of the simulator,
    and are left out; the reads that can raise before them are kept.  The
    energy sample is whatever [get_energy] returns, a special value
    included. *)

Record globals : Type := Globals {
  sim : ThreeBodySimulator;
  energy_times : deque R;
  energy_values : deque Ieee.xreal;
  velocity_times : deque R;
  velocity_data : list (deque R)
}.

(** Line 266: the speed of a body in AU per year. *)
Definition speed_of (v : vec2) : R := norm v * (365.25 * DAY) / AU.

Definition animate (frame : nat) (g : globals) : result globals :=
  (* lines 231-232 *)
  s <~ for_in (range 50) (fun _ s =>
         '(_, s') <~ update_system s ;; Ok s') (sim g) ;;
  (* lines 235-236: x, y = sim.positions[i] for the three markers *)
  _ <~ for_in (range 3) (fun i u =>
         _ <~ getitem (positions s) i ;; Ok u) tt ;;
  (* lines 240-241: len(sim.trajectories[i]) for the three trails *)
  _ <~ for_in (range 3) (fun i u =>
         _ <~ getitem (trajectories s) i ;; Ok u) tt ;;
  (* lines 246-248 *)
  '(current_energy, s) <~ Ieee.get_energy s ;;
  let energy_times' := append (energy_times g) (time s / (DAY * 365.25)) in
  let energy_values' := append (energy_values g) current_energy in
  (* lines 263-267 *)
  let current_time := time s / (DAY * 365.25) in
  let velocity_times' := append (velocity_times g) current_time in
  velocity_data' <~ for_in (range 3) (fun i velocity_data =>
         v <~ getitem (velocities s) i ;;
         let speed := speed_of v in
         d <~ getitem velocity_data i ;;
         setitem velocity_data i (append d speed)) (velocity_data g) ;;
  Ok (Globals s energy_times' energy_values' velocity_times' velocity_data').

(** * The formulas of the specification

    Definitions that follow the words of the specification, to be compared
    with the methods above. *)

(** Force model: "compute displacement vector r = pos[j] - pos[i]; compute
    softened distance d = sqrt(|r|^2 + eps^2); accumulate acceleration on
    body i as G_scaled x mass[j] x r / d^3". *)
Definition pair_term (m : list R) (p : array) (i j : nat) : vec2 :=
  let r := vsub (nth j p vzero) (nth i p vzero) in
  let d := sqrt (norm r ^ 2 + softening ^ 2) in
  vscale (G_scaled * nth j m 0 / d ^ 3) r.

(** The bodies [j] other than [i], in increasing order. *)
Definition others (n i : nat) : list nat :=
  filter (fun j => negb (Nat.eqb i j)) (range n).

(** "for every ordered pair (i, j), i <> j": the acceleration of body [i]. *)
Definition force_row (m : list R) (p : array) (i : nat) : vec2 :=
  sum_axis0 (map (pair_term m p i) (others (length p) i)).

Definition force_model (m : list R) (p : array) : array :=
  map (force_row m p) (range (length p)).

(** RK4 integrator: the classical four stages for dpos/dt = vel,
    dvel/dt = accel(pos), each stage a pair (k.pos, k.vel). *)
Section RK4.
Variable accel : array -> array.
Variable h : R.

Definition arr_plus (a b : array) : array := zip_with vadd a b.

(** "k1 = (vel, accel(pos))" *)
Definition k1 (pos vel : array) : array * array :=
  (vel, accel pos).

(** "k2 = (vel + 1/2 h k1.vel, accel(pos + 1/2 h k1.pos))" *)
Definition k2 (pos vel : array) : array * array :=
  let k := k1 pos vel in
  (arr_plus vel (arr_scale (1 / 2 * h) (snd k)),
   accel (arr_plus pos (arr_scale (1 / 2 * h) (fst k)))).

(** "k3 = (vel + 1/2 h k2.vel, accel(pos + 1/2 h k2.pos))" *)
Definition k3 (pos vel : array) : array * array :=
  let k := k2 pos vel in
  (arr_plus vel (arr_scale (1 / 2 * h) (snd k)),
   accel (arr_plus pos (arr_scale (1 / 2 * h) (fst k)))).

(** "k4 = (vel + h k3.vel, accel(pos + h k3.pos))" *)
Definition k4 (pos vel : array) : array * array :=
  let k := k3 pos vel in
  (arr_plus vel (arr_scale h (snd k)),
   accel (arr_plus pos (arr_scale h (fst k)))).

(** "pos' = pos + (h/6)(k1.pos + 2 k2.pos + 2 k3.pos + k4.pos)" *)
Definition rk4_positions (pos vel : array) : array :=
  arr_plus pos
    (arr_scale (h / 6)
       (arr_plus
          (arr_plus
             (arr_plus (fst (k1 pos vel)) (arr_scale 2 (fst (k2 pos vel))))
             (arr_scale 2 (fst (k3 pos vel))))
          (fst (k4 pos vel)))).

(** "vel' = vel + (h/6)(k1.vel + 2 k2.vel + 2 k3.vel + k4.vel)" *)
Definition rk4_velocities (pos vel : array) : array :=
  arr_plus vel
    (arr_scale (h / 6)
       (arr_plus
          (arr_plus
             (arr_plus (snd (k1 pos vel)) (arr_scale 2 (snd (k2 pos vel))))
             (arr_scale 2 (snd (k3 pos vel))))
          (snd (k4 pos vel)))).
End RK4.

(** Chaos analyzer: "once more than 10 samples exist, filter out near-zero
    ratios, and if more than 5 valid samples remain, estimate the Lyapunov
    exponent as the mean of the discrete differences of ln(ratio) across
    consecutive valid samples; otherwise emit 0".  The filter is a
    parameter: [keep x] says that the ratio [x] is a valid sample. *)
Fixpoint consecutive_differences (l : list R) : list R :=
  match l with
  | x :: (y :: _) as l' => (y - x) :: consecutive_differences l'
  | _ => []
  end.

Definition mean (l : list R) : R := np_sum l / INR (length l).

Definition estimate_with (keep : R -> bool) (samples : list R) : R :=
  if Nat.leb (length samples) 10 then 0
  else
    let valid := filter keep samples in
    if Nat.leb (length valid) 5 then 0
    else mean (consecutive_differences (map ln valid)).

(** "ratios below 1e-10 are filtered out": a ratio is kept unless it is
    below the threshold. *)
Definition not_below_threshold (x : R) : bool :=
  if Rlt_dec x 1e-10 then false else true.

(** A ratio is kept when it is above the threshold. *)
Definition above_threshold (x : R) : bool :=
  if Rlt_dec 1e-10 x then true else false.

Definition vneg (a : vec2) : vec2 := V2 (- vx a) (- vy a).

(** Body state store: "SUM mass[i].position[i]", the mass-weighted sum of
    the rows of an array. *)
Definition mass_weighted_sum (m : list R) (a : array) : vec2 :=
  sum_axis0 (zip_with vscale m a).

(** The three arrays that [__init__] starts from (lines 23-41). *)
Definition hard_coded_masses : list R :=
  map (fun m => m * MASS_SCALE) [1.0; 0.1; 0.05].

Definition hard_coded_positions : array :=
  arr_times [V2 0.0 0.0; V2 1.5 0.0; V2 0.75 1.3] DISTANCE_SCALE.

Definition hard_coded_velocities : array :=
  arr_times [V2 0.0 1.0; V2 0.0 (-3.0); V2 (-2.5) 1.5]
    (sqrt (G_scaled * MASS_SCALE / DISTANCE_SCALE)).

(** The centre of mass of an array of per-body rows. *)
Definition center_of (m : list R) (a : array) : vec2 :=
  V2 (vx (mass_weighted_sum m a) / np_sum m)
     (vy (mass_weighted_sum m a) / np_sum m).

Definition recentered (m : list R) (a : array) : array :=
  map (fun p => vsub p (center_of m a)) a.

(** Energy monitor: "Kinetic = SUM 1/2.mass[i].|vel[i]|^2.  Potential =
    SUM_{i<j} -G_scaled.mass[i].mass[j]/|pos[i]-pos[j]| (unsoftened, exact
    pairwise distance)". *)
Definition kinetic_energy (m : list R) (v : array) : R :=
  np_sum (zip_with (fun mi vi => 1 / 2 * mi * norm vi ^ 2) m v).

(** The pairs (i, j) with i < j < n. *)
Definition pairs (n : nat) : list (nat * nat) :=
  flat_map (fun i => map (pair i) (range_from (i + 1) n)) (range n).

Definition pair_potential (m : list R) (p : array) (ij : nat * nat) : R :=
  - (G_scaled * nth (fst ij) m 0 * nth (snd ij) m 0
     / norm (vsub (nth (fst ij) p vzero) (nth (snd ij) p vzero))).

Definition potential_energy (m : list R) (p : array) : R :=
  np_sum (map (pair_potential m p) (pairs (length m))).

Definition total_energy (self : ThreeBodySimulator) : R :=
  kinetic_energy (masses self) (velocities self) +
  potential_energy (masses self) (positions self).

(** No two bodies are at the same position. *)
Definition separated (self : ThreeBodySimulator) : Prop :=
  forall i j : nat,
    (i < j)%nat -> (j < length (masses self))%nat ->
    nth i (positions self) vzero <> nth j (positions self) vzero.

(** Two distinct bodies are at exactly the same position. *)
Definition coincident (self : ThreeBodySimulator) : Prop :=
  exists i j : nat,
    (i < j)%nat /\ (j < length (masses self))%nat /\
    nth i (positions self) vzero = nth j (positions self) vzero.

(** One RK4 step as a map on the pair (positions, velocities), for
    bodies of masses [m] and a time step [h]. *)
Definition rk4_map (m : list R) (h : R) (x : array * array)
  : array * array :=
  (rk4_positions (force_model m) h (fst x) (snd x),
   rk4_velocities (force_model m) h (fst x) (snd x)).

(** ** Well-shaped objects *)

(** The three arrays describe the same number of bodies. *)
Definition well_shaped (self : ThreeBodySimulator) : Prop :=
  length (masses self) = length (positions self) /\
  length (velocities self) = length (positions self).

(** What one call of [update_system] needs besides the shapes: bodies 1
    and 2 (the pair the chaos analyzer tracks) exist, every body has its
    trajectory deque, and the reference separation is not zero. *)
Definition steppable (self : ThreeBodySimulator) : Prop :=
  well_shaped self /\
  (3 <= length (positions self))%nat /\
  (length (positions self) <= length (trajectories self))%nat /\
  initial_separation self <> 0.

(** Two objects describe the same physical system, whatever their clocks
    and buffers hold. *)
Definition same_physics (s1 s2 : ThreeBodySimulator) : Prop :=
  masses s1 = masses s2 /\
  positions s1 = positions s2 /\
  velocities s1 = velocities s2 /\
  dt s1 = dt s2.

(** * Closed forms of the bookkeeping *)

(** Lines 112-113 as one expression: deque [i] receives position [i]; the
    deques of bodies that do not exist are left alone. *)
Fixpoint record_positions (ts : list (deque vec2)) (p : array)
  : list (deque vec2) :=
  match ts, p with
  | t :: ts', x :: p' => append t x :: record_positions ts' p'
  | _, _ => ts
  end.

(** The object after one call of [update_system] (lines 89-115), written
    as one expression. *)
Definition stepped (self : ThreeBodySimulator) : ThreeBodySimulator :=
  let accel := force_model (masses self) in
  let pos' :=
    rk4_positions accel (dt self) (positions self) (velocities self) in
  let vel' :=
    rk4_velocities accel (dt self) (positions self) (velocities self) in
  let t' := time self + dt self in
  let c := chaos_data self in
  let ratio :=
    norm (vsub (nth 1 pos' vzero) (nth 2 pos' vzero))
    / initial_separation self in
  let series := append (separations c) ratio in
  Sim (masses self) pos' vel' (trajectory_length self)
      (record_positions (trajectories self) pos')
      (dt self) t'
      (Chaos (append (times c) (t' / (DAY * 365.25)))
             series
             (append (lyapunov c)
                (estimate_with above_threshold (items series))))
      (initial_separation self) (colors self) (sizes self).

(** Total linear momentum and mass moment of the bodies. *)
Definition total_momentum (self : ThreeBodySimulator) : vec2 :=
  mass_weighted_sum (masses self) (velocities self).

Definition mass_moment (self : ThreeBodySimulator) : vec2 :=
  mass_weighted_sum (masses self) (positions self).

(** ** A small object to run the methods on *)

Definition sample : ThreeBodySimulator :=
  Sim [1; 2; 3]
      [V2 0 0; V2 3 4; V2 0 1]
      [V2 0 0; V2 1 0; V2 0 1]
      500 [deque_new 500; deque_new 500; deque_new 500]
      1 0
      (Chaos (deque_new 1000) (deque_new 1000) (deque_new 1000))
      1 [] [].

(** [sample] with bodies 0 and 1 at the same position. *)
Definition collided : ThreeBodySimulator :=
  set_positions [V2 1 1; V2 1 1; V2 0 0] sample.

(** A state with ten chaos records whose oldest separation ratio is
    exactly 1e-10, and whose bodies 1 and 2 are one initial separation
    apart. *)
Definition at_threshold : ThreeBodySimulator :=
  set_chaos_data
    (Chaos (Deque 1000 [1; 2; 3; 4; 5; 6; 7; 8; 9; 10])
           (Deque 1000 [1e-10; 1; 1; 1; 1; 1; 1; 1; 1; 1])
           (Deque 1000 [0; 0; 0; 0; 0; 0; 0; 0; 0; 0]))
    (set_positions [V2 0 0; V2 0 0; V2 1 0] sample).

(** Two bodies at distance 5. *)
Definition two_body : ThreeBodySimulator :=
  Sim [1; 2] [V2 0 0; V2 3 4] [V2 1 0; V2 0 1]
      500 [deque_new 500; deque_new 500]
      1 0
      (Chaos (deque_new 1000) (deque_new 1000) (deque_new 1000))
      5 [] [].

(** Three bodies with their centre of mass at the origin and no net
    momentum. *)
Definition balanced : ThreeBodySimulator :=
  Sim [1; 1; 2]
      [V2 1 0; V2 (-1) 0; V2 0 0]
      [V2 0 1; V2 0 (-1); V2 0 0]
      500 [deque_new 500; deque_new 500; deque_new 500]
      1 0
      (Chaos (deque_new 1000) (deque_new 1000) (deque_new 1000))
      1 [] [].

(** A deque holds no more than its [maxlen]. *)
Definition within_capacity {A : Type} (d : deque A) : Prop :=
  (len d <= maxlen d)%nat.

(** The object that the constructor call returns (lines 21-64, on the
    hard-coded arrays). *)
Definition constructed : ThreeBodySimulator :=
  let p := recentered hard_coded_masses hard_coded_positions in
  Sim hard_coded_masses p
      (recentered hard_coded_masses hard_coded_velocities)
      500 [deque_new 500; deque_new 500; deque_new 500]
      (TIME_SCALE * 100) 0.0
      (Chaos (deque_new 1000) (deque_new 1000) (deque_new 1000))
      (norm (vsub (nth 1 p vzero) (nth 2 p vzero)))
      ["gold"; "red"; "blue"]%string [20; 15; 12]%Z.

(** The module state before the first frame, around a given simulator
    (lines 211-214). *)
Definition first_frame (s : ThreeBodySimulator) : globals :=
  Globals s (deque_new 2000) (deque_new 2000) (deque_new 2000)
          (map (fun _ => deque_new 2000) (range 3)).

(** [sample] with a zero time step. *)
Definition frozen : ThreeBodySimulator := set_dt 0 sample.

(** * Properties *)

(** ** Results, lists and shapes *)

Lemma elementwise_ok {A B C : Type} (f : A -> B -> C) (a : list A)
  (b : list B) :
  length a = length b -> elementwise f a b = Ok (zip_with f a b).
Proof.
  intros H. unfold elementwise. rewrite H, Nat.eqb_refl. reflexivity.
Qed.

Lemma zip_with_length {A B C : Type} (f : A -> B -> C) (a : list A) :
  forall b : list B,
    length a = length b -> length (zip_with f a b) = length a.
Proof.
  induction a as [|x a IH]; intros [|y b] H; simpl in *; try lia.
  rewrite IH; lia.
Qed.

Lemma arr_scale_length (c : R) (a : array) :
  length (arr_scale c a) = length a.
Proof. apply length_map. Qed.

Lemma getitem_ok {A : Type} (l : list A) (i : nat) (d : A) :
  (i < length l)%nat -> getitem l i = Ok (nth i l d).
Proof.
  intros H. unfold getitem.
  destruct (nth_error l i) eqn:E.
  - rewrite (nth_error_nth _ _ d E). reflexivity.
  - apply nth_error_None in E. lia.
Qed.

Lemma getitem_out {A : Type} (l : list A) (i : nat) :
  (length l <= i)%nat -> getitem l i = Raise IndexError.
Proof.
  intros H. unfold getitem.
  apply nth_error_None in H. rewrite H. reflexivity.
Qed.

Lemma set_nth_length {A : Type} (l : list A) :
  forall (i : nat) (x : A), length (set_nth l i x) = length l.
Proof.
  induction l as [|y l IH]; intros [|i] x; simpl; auto.
Qed.

Lemma nth_set_nth {A : Type} (d : A) (l : list A) :
  forall (i k : nat) (x : A),
    (i < length l)%nat ->
    nth k (set_nth l i x) d = if Nat.eqb k i then x else nth k l d.
Proof.
  induction l as [|y l IH]; intros [|i] [|k] x H; simpl in *;
    try lia; auto.
  apply IH. lia.
Qed.

Lemma setitem_ok {A : Type} (l : list A) (i : nat) (x : A) :
  (i < length l)%nat -> setitem l i x = Ok (set_nth l i x).
Proof.
  intros H. unfold setitem.
  destruct (Nat.ltb_spec i (length l)); [reflexivity | lia].
Qed.

Lemma np_div_ok (a b : R) : b <> 0 -> np_div a b = Ok (a / b).
Proof.
  intros H. unfold np_div. destruct (Req_dec_T b 0); [contradiction | auto].
Qed.

Lemma np_div_inv (a b q : R) : np_div a b = Ok q -> b <> 0 /\ q = a / b.
Proof.
  unfold np_div. destruct (Req_dec_T b 0); [discriminate |].
  intros H. inversion H. auto.
Qed.

(** A loop whose body keeps an invariant and never raises runs to its end
    and keeps the invariant. *)
Lemma for_in_invariant {S : Type} (P : S -> Prop) (body : nat -> S -> result S)
  (l : list nat) :
  (forall i st, In i l -> P st -> exists st', body i st = Ok st' /\ P st') ->
  forall st, P st -> exists st', for_in l body st = Ok st' /\ P st'.
Proof.
  induction l as [|i l IH]; intros Hbody st Hst; simpl.
  - eauto.
  - destruct (Hbody i st (or_introl eq_refl) Hst) as [st1 [E1 H1]].
    rewrite E1. simpl. apply IH; auto.
    intros k s Hk. apply Hbody. right. exact Hk.
Qed.

(** ** Vectors *)

Lemma vec2_eq (a b : vec2) : vx a = vx b -> vy a = vy b -> a = b.
Proof. destruct a, b. simpl. intros -> ->. reflexivity. Qed.

Lemma vadd_zero_r (a : vec2) : vadd a vzero = a.
Proof. apply vec2_eq; simpl; ring. Qed.

Lemma vadd_zero_l (a : vec2) : vadd vzero a = a.
Proof. apply vec2_eq; simpl; ring. Qed.

Lemma vadd_assoc (a b c : vec2) : vadd (vadd a b) c = vadd a (vadd b c).
Proof. apply vec2_eq; simpl; ring. Qed.

Lemma norm_nonneg (a : vec2) : 0 <= norm a.
Proof. apply sqrt_pos. Qed.

Lemma norm_square (a : vec2) : norm a ^ 2 = vx a ^ 2 + vy a ^ 2.
Proof.
  unfold norm. rewrite <- (Rsqr_pow2 (sqrt _)). apply Rsqr_sqrt.
  apply Rplus_le_le_0_compat; apply pow2_ge_0.
Qed.

Lemma norm_vsub_sym (a b : vec2) : norm (vsub a b) = norm (vsub b a).
Proof. unfold norm. f_equal. simpl. ring. Qed.

Lemma norm_zero_iff (a : vec2) : norm a = 0 <-> a = vzero.
Proof.
  split.
  - intros H. pose proof (norm_square a) as Hs. rewrite H in Hs.
    apply vec2_eq; simpl; nra.
  - intros ->. unfold norm, vzero. simpl.
    replace (0 ^ 2 + 0 ^ 2) with 0 by ring. apply sqrt_0.
Qed.

Lemma norm_vsub_zero_iff (a b : vec2) : norm (vsub a b) = 0 <-> a = b.
Proof.
  rewrite norm_zero_iff. split.
  - intros H. apply vec2_eq.
    + apply (f_equal vx) in H. simpl in H. lra.
    + apply (f_equal vy) in H. simpl in H. lra.
  - intros ->. apply vec2_eq; simpl; ring.
Qed.

(** ** Constants *)

Lemma DAY_value : DAY = 86400.
Proof. unfold DAY. lra. Qed.

Lemma softening_value : softening = 14960000.
Proof. unfold softening, DISTANCE_SCALE, AU. lra. Qed.

Lemma softening_pos : 0 < softening.
Proof. rewrite softening_value. lra. Qed.

Lemma G_scaled_pos : 0 < G_scaled.
Proof.
  unfold G_scaled, G, MASS_SCALE, SOLAR_MASS, TIME_SCALE, DISTANCE_SCALE, AU.
  rewrite DAY_value.
  apply Rdiv_lt_0_compat; [| apply pow_lt]; lra.
Qed.

Lemma softened_distance_pos (d : R) : 0 < sqrt (d ^ 2 + softening ^ 2).
Proof.
  apply sqrt_lt_R0. pose proof softening_pos. nra.
Qed.

(** ** Force model: the loops of [compute_accelerations] compute
    [force_model] *)

Lemma set_nth_same {A : Type} (d : A) (l : list A) :
  forall i : nat, set_nth l i (nth i l d) = l.
Proof.
  induction l as [|y l IH]; intros [|i]; simpl; auto.
  rewrite IH. reflexivity.
Qed.

Lemma set_nth_twice {A : Type} (l : list A) :
  forall (i : nat) (x y : A), set_nth (set_nth l i x) i y = set_nth l i y.
Proof.
  induction l as [|z l IH]; intros [|i] x y; simpl; auto.
  rewrite IH. reflexivity.
Qed.

Lemma pair_acceleration_ok (m : list R) (p : array) (i j : nat) :
  (i < length p)%nat -> (j < length p)%nat -> (length p <= length m)%nat ->
  pair_acceleration m p i j = Ok (pair_term m p i j).
Proof.
  intros Hi Hj Hm. unfold pair_acceleration, pair_term.
  rewrite (getitem_ok p j vzero Hj), (getitem_ok p i vzero Hi). simpl rbind.
  rewrite (getitem_ok m j 0) by lia. simpl rbind.
  rewrite np_div_ok; [reflexivity |].
  apply pow_nonzero. apply Rgt_not_eq. apply softened_distance_pos.
Qed.

Lemma iadd_row_ok (acc : array) (i : nat) (a : vec2) :
  (i < length acc)%nat ->
  iadd_row acc i a = Ok (set_nth acc i (vadd (nth i acc vzero) a)).
Proof.
  intros H. unfold iadd_row. rewrite (getitem_ok acc i vzero H). simpl.
  apply setitem_ok. exact H.
Qed.

Section ForceLoops.
Variables (m : list R) (p : array).
Hypothesis masses_cover : (length p <= length m)%nat.

Lemma inner_loop (i : nat) (Hi : (i < length p)%nat) :
  forall (js : list nat) (acc : array),
    (forall j, In j js -> (j < length p)%nat) ->
    length acc = length p ->
    for_in js (accumulate_pair m p i) acc =
    Ok (set_nth acc i
          (vadd (nth i acc vzero)
             (sum_axis0
                (map (pair_term m p i)
                   (filter (fun j => negb (Nat.eqb i j)) js))))).
Proof.
  induction js as [|j js IH]; intros acc Hjs Hlen; simpl.
  - rewrite vadd_zero_r, set_nth_same. reflexivity.
  - unfold accumulate_pair at 1. destruct (Nat.eqb i j) eqn:E; simpl.
    + apply IH; auto. intros k Hk. apply Hjs. right. exact Hk.
    + rewrite pair_acceleration_ok; auto.
      2: apply Hjs; left; reflexivity.
      simpl. rewrite iadd_row_ok by lia. simpl.
      rewrite IH.
      * rewrite set_nth_twice.
        rewrite (nth_set_nth vzero) by lia. rewrite Nat.eqb_refl.
        rewrite vadd_assoc. reflexivity.
      * intros k Hk. apply Hjs. right. exact Hk.
      * rewrite set_nth_length. exact Hlen.
Qed.

Lemma outer_loop :
  forall (k a : nat) (acc : array),
    (a + k <= length p)%nat ->
    length acc = length p ->
    exists acc',
      for_in (seq a k) (fun i accelerations =>
        for_in (range (length p)) (accumulate_pair m p i) accelerations) acc
      = Ok acc' /\
      length acc' = length p /\
      forall q : nat,
        nth q acc' vzero =
        if andb (Nat.leb a q) (Nat.ltb q (a + k))
        then vadd (nth q acc vzero) (force_row m p q)
        else nth q acc vzero.
Proof.
  induction k as [|k IH]; intros a acc Hak Hlen; simpl.
  - exists acc. repeat split; auto. intros q.
    destruct (Nat.leb_spec a q); simpl; auto.
    destruct (Nat.ltb_spec q (a + 0)); auto. lia.
  - rewrite inner_loop; auto; try lia.
    2: { intros j Hj. apply in_seq in Hj. lia. }
    simpl.
    destruct (IH (S a)
                (set_nth acc a
                   (vadd (nth a acc vzero)
                      (sum_axis0
                         (map (pair_term m p a)
                            (filter (fun j => negb (Nat.eqb a j))
                               (range (length p))))))))
      as [acc' [E [L Hq]]].
    + lia.
    + rewrite set_nth_length. exact Hlen.
    + exists acc'. split; [exact E |]. split; [exact L |].
      intros q. rewrite Hq. rewrite (nth_set_nth vzero) by lia.
      destruct (Nat.eqb_spec q a) as [-> | Hne].
      * destruct (Nat.leb_spec (S a) a); [lia |]. simpl.
        destruct (Nat.leb_spec a a); [| lia]. simpl.
        destruct (Nat.ltb_spec a (a + S k)); [| lia]. reflexivity.
      * destruct (Nat.leb_spec (S a) q), (Nat.leb_spec a q); simpl;
          try lia; auto.
        replace (S (a + k)) with (a + S k)%nat by lia. reflexivity.
Qed.

Lemma accelerations_of_force_model :
  accelerations_of m p = Ok (force_model m p).
Proof.
  unfold accelerations_of.
  destruct (outer_loop (length p) 0 (np_zeros (length p))) as [acc [E [L Hq]]].
  - lia.
  - apply repeat_length.
  - unfold range at 1. rewrite E. f_equal.
    apply (nth_ext _ _ vzero vzero).
    + unfold force_model. rewrite length_map. unfold range.
      rewrite length_seq. exact L.
    + intros q Hlt. rewrite Hq.
      destruct (Nat.leb_spec 0 q); [| lia]. simpl.
      destruct (Nat.ltb_spec q (length p)); [| lia].
      unfold np_zeros. rewrite nth_repeat. rewrite vadd_zero_l.
      unfold force_model.
      rewrite (nth_indep _ vzero (force_row m p 0)).
      2: { rewrite length_map. unfold range. rewrite length_seq. lia. }
      rewrite (map_nth (force_row m p)). unfold range.
      rewrite seq_nth by lia. reflexivity.
Qed.
End ForceLoops.

Lemma force_model_length (m : list R) (p : array) :
  length (force_model m p) = length p.
Proof.
  unfold force_model, range. rewrite length_map, length_seq. reflexivity.
Qed.

(** ** RK4 integrator *)

Lemma compute_accelerations_ok (self : ThreeBodySimulator) :
  (length (positions self) <= length (masses self))%nat ->
  compute_accelerations self =
  Ok (force_model (masses self) (positions self), self).
Proof.
  intros H. unfold compute_accelerations.
  rewrite accelerations_of_force_model by exact H. reflexivity.
Qed.

Lemma set_positions_restore (a : array) (self : ThreeBodySimulator) :
  set_positions (positions self) (set_positions a self) = self.
Proof. destruct self. reflexivity. Qed.

(** Whenever [derivatives] returns, [self] is what it was before the call. *)
Lemma derivatives_restores (pos vel : ndarray) (self self' : ThreeBodySimulator)
  (r : ndarray * ndarray) :
  derivatives pos vel self = Ok (r, self') -> self' = self.
Proof.
  unfold derivatives, bind, gets, ret, assign_positions, compute_accelerations.
  destruct (Nat.eqb_spec (length (deref self pos)) (length (positions self)))
    as [E |]; [| discriminate].
  cbn [positions set_positions masses].
  destruct (accelerations_of (masses self) (deref self pos)); [| discriminate].
  cbn [rbind positions set_positions]. rewrite E, Nat.eqb_refl.
  intros H. inversion H. apply set_positions_restore.
Qed.

Lemma derivatives_ok (pos vel : ndarray) (self : ThreeBodySimulator) :
  (length (positions self) <= length (masses self))%nat ->
  length (deref self pos) = length (positions self) ->
  derivatives pos vel self =
  Ok ((vel, Fresh (force_model (masses self) (deref self pos))), self).
Proof.
  intros Hm Hp.
  unfold derivatives, bind, gets, ret, assign_positions.
  rewrite Hp, Nat.eqb_refl.
  rewrite compute_accelerations_ok.
  2: { cbn [positions set_positions masses]. rewrite Hp. exact Hm. }
  cbn [positions set_positions masses].
  rewrite Hp, Nat.eqb_refl. rewrite set_positions_restore. reflexivity.
Qed.

(** C2: [derivatives(pos, vel)] evaluates the accelerations at the trial
    positions [pos] it is given (the force model applied to [pos], whatever
    [self.positions] holds), hands back [vel] itself, and leaves [self] as
    it found it: whenever it returns, every attribute of the simulator
    (positions, velocities, masses, time and all the others) has the value
    it had before the call. *)
Theorem derivatives_trial_positions_frame
  (self : ThreeBodySimulator) (pos vel : ndarray) :
  ((length (positions self) <= length (masses self))%nat ->
   length (deref self pos) = length (positions self) ->
   derivatives pos vel self =
   Ok ((vel, Fresh (force_model (masses self) (deref self pos))), self)) /\
  (forall (r : ndarray * ndarray) (self' : ThreeBodySimulator),
     derivatives pos vel self = Ok (r, self') -> self' = self).
Proof.
  split.
  - apply derivatives_ok.
  - intros r self'. apply derivatives_restores.
Qed.

Lemma derivatives_trial_positions_frame_witness :
  derivatives (Fresh [V2 1 1; V2 2 2; V2 5 5]) SelfVelocities sample =
  Ok ((SelfVelocities,
       Fresh (force_model (masses sample) [V2 1 1; V2 2 2; V2 5 5])),
      sample).
Proof.
  apply (proj1 (derivatives_trial_positions_frame sample
                  (Fresh [V2 1 1; V2 2 2; V2 5 5]) SelfVelocities)).
  - simpl. lia.
  - reflexivity.
Defined.

Lemma plus_scaled_ok (base k : ndarray) (c : R) (self : ThreeBodySimulator) :
  length (deref self base) = length (deref self k) ->
  plus_scaled base c k self =
  Ok (Fresh (arr_plus (deref self base) (arr_scale c (deref self k))), self).
Proof.
  intros H. unfold plus_scaled, arr_add.
  rewrite elementwise_ok by (rewrite arr_scale_length; exact H).
  reflexivity.
Qed.

Lemma arr_plus_length (a b : array) :
  length a = length b -> length (arr_plus a b) = length a.
Proof. apply zip_with_length. Qed.

Lemma weighted_sum_ok (a b c d : ndarray) (self : ThreeBodySimulator) :
  length (deref self a) = length (deref self b) ->
  length (deref self a) = length (deref self c) ->
  length (deref self a) = length (deref self d) ->
  weighted_sum a b c d self =
  Ok (arr_plus
        (arr_plus (arr_plus (deref self a) (arr_scale 2 (deref self b)))
           (arr_scale 2 (deref self c)))
        (deref self d), self).
Proof.
  intros Hb Hc Hd. unfold weighted_sum, arr_add.
  rewrite elementwise_ok by (rewrite arr_scale_length; exact Hb).
  cbn [rbind].
  rewrite elementwise_ok.
  2: { fold (arr_plus (deref self a) (arr_scale 2 (deref self b))).
       rewrite arr_plus_length, arr_scale_length; auto.
       rewrite arr_scale_length; auto. }
  cbn [rbind].
  rewrite elementwise_ok.
  2: { fold (arr_plus (deref self a) (arr_scale 2 (deref self b))).
       fold (arr_plus (arr_plus (deref self a) (arr_scale 2 (deref self b)))
               (arr_scale 2 (deref self c))).
       rewrite !arr_plus_length; rewrite ?arr_scale_length; auto.
       rewrite arr_plus_length; rewrite ?arr_scale_length; auto. }
  reflexivity.
Qed.

Lemma bind_ok {A B : Type} (m : M A) (k : A -> M B)
  (self self' : ThreeBodySimulator) (a : A) :
  m self = Ok (a, self') -> bind m k self = k a self'.
Proof. intros H. unfold bind. rewrite H. reflexivity. Qed.

Lemma bind_raise {A B : Type} (m : M A) (k : A -> M B)
  (self : ThreeBodySimulator) (e : exn) :
  m self = Raise e -> bind m k self = Raise e.
Proof. intros H. unfold bind. rewrite H. reflexivity. Qed.

Lemma iadd_positions_ok (a : array) (self : ThreeBodySimulator) :
  length (positions self) = length a ->
  iadd_positions a self =
  Ok (tt, set_positions (arr_plus (positions self) a) self).
Proof.
  intros H. unfold iadd_positions, arr_add.
  rewrite elementwise_ok by exact H. reflexivity.
Qed.

Lemma iadd_velocities_ok (a : array) (self : ThreeBodySimulator) :
  length (velocities self) = length a ->
  iadd_velocities a self =
  Ok (tt, set_velocities (arr_plus (velocities self) a) self).
Proof.
  intros H. unfold iadd_velocities, arr_add.
  rewrite elementwise_ok by exact H. reflexivity.
Qed.

Lemma arr_plus_length_min (a b : array) :
  length (arr_plus a b) = Nat.min (length a) (length b).
Proof.
  revert b. induction a as [|x a IH]; intros [|y b]; simpl; auto.
Qed.

Ltac shapes :=
  cbn [deref positions velocities masses set_positions set_velocities
       set_time fst snd];
  unfold k4, k3, k2, k1; cbn [fst snd];
  repeat rewrite ?arr_plus_length_min, ?arr_scale_length,
    ?force_model_length;
  lia.

(** The state after line 109, before the bookkeeping of lines 111-115. *)
Lemma update_system_integrates (self : ThreeBodySimulator) :
  well_shaped self ->
  update_system self =
  bind store_trajectories (fun _ => analyze_chaos)
    (set_time (time self + dt self)
       (set_velocities
          (rk4_velocities (force_model (masses self)) (dt self)
             (positions self) (velocities self))
          (set_positions
             (rk4_positions (force_model (masses self)) (dt self)
                (positions self) (velocities self))
             self))).
Proof.
  intros [Hm Hv].
  unfold update_system.
  erewrite bind_ok; [| apply derivatives_ok; [lia | reflexivity]].
  cbv beta iota zeta.
  erewrite bind_ok; [| reflexivity].
  replace (0.5 * dt self) with (1 / 2 * dt self) by lra.
  erewrite bind_ok; [| apply plus_scaled_ok; shapes].
  erewrite bind_ok; [| apply plus_scaled_ok; shapes].
  erewrite bind_ok; [| apply derivatives_ok; shapes].
  cbv beta iota zeta.
  erewrite bind_ok; [| apply plus_scaled_ok; shapes].
  erewrite bind_ok; [| apply plus_scaled_ok; shapes].
  erewrite bind_ok; [| apply derivatives_ok; shapes].
  cbv beta iota zeta.
  erewrite bind_ok; [| apply plus_scaled_ok; shapes].
  erewrite bind_ok; [| apply plus_scaled_ok; shapes].
  erewrite bind_ok; [| apply derivatives_ok; shapes].
  cbv beta iota zeta.
  erewrite bind_ok; [| apply weighted_sum_ok; shapes].
  erewrite bind_ok; [| apply iadd_positions_ok; shapes].
  erewrite bind_ok; [| apply weighted_sum_ok; shapes].
  erewrite bind_ok; [| apply iadd_velocities_ok; shapes].
  erewrite bind_ok; [| reflexivity].
  reflexivity.
Qed.

(** ** Trajectory buffer *)

Lemma store_trajectories_ok (self : ThreeBodySimulator) :
  (length (positions self) <= length (trajectories self))%nat ->
  exists ts : list (deque vec2),
    store_trajectories self = Ok (tt, set_trajectories ts self) /\
    length ts = length (trajectories self).
Proof.
  intros H. unfold store_trajectories.
  destruct (for_in_invariant
              (fun st => st = set_trajectories (trajectories st) self /\
                         length (trajectories st) = length (trajectories self))
              (fun i self0 =>
                 t <~ getitem (trajectories self0) i ;;
                 p <~ getitem (positions self0) i ;;
                 ts <~ setitem (trajectories self0) i (append t p) ;;
                 Ok (set_trajectories ts self0))
              (range (length (positions self)))) with (st := self)
    as [st [E [Hst Hlen]]].
  - intros i st Hi [Hst Hlen]. apply in_seq in Hi.
    assert (Hpos : positions st = positions self) by (rewrite Hst; reflexivity).
    rewrite (getitem_ok (trajectories st) i (deque_new 0)) by lia.
    cbn [rbind]. rewrite Hpos.
    rewrite (getitem_ok (positions self) i vzero) by lia.
    cbn [rbind]. rewrite setitem_ok by lia. cbn [rbind].
    eexists. split; [reflexivity |]. split.
    + rewrite Hst. reflexivity.
    + cbn [trajectories set_trajectories]. rewrite set_nth_length. exact Hlen.
  - split; [destruct self; reflexivity | reflexivity].
  - rewrite E. cbn [rbind]. exists (trajectories st).
    split; [rewrite <- Hst; reflexivity | exact Hlen].
Qed.

(** ** Chaos analyzer *)

Lemma Rgtb_above (x : R) : Rgtb x 1e-10 = above_threshold x.
Proof. reflexivity. Qed.

Lemma above_threshold_pos (x : R) : above_threshold x = true -> 0 < x.
Proof.
  unfold above_threshold. destruct (Rlt_dec 1e-10 x); [lra | discriminate].
Qed.

Lemma map_result_log (l : list R) :
  Forall (fun x => 0 < x) l -> map_result np_log l = Ok (map ln l).
Proof.
  induction 1 as [|x l Hx _ IH]; simpl.
  - reflexivity.
  - unfold np_log at 1. destruct (Rlt_dec 0 x); [| contradiction].
    cbn [rbind]. rewrite IH. reflexivity.
Qed.

Lemma np_diff_consecutive (l : list R) :
  np_diff l = consecutive_differences l.
Proof.
  unfold np_diff. induction l as [|x [|y l] IH]; simpl in *; auto.
  rewrite IH. reflexivity.
Qed.

Lemma consecutive_differences_length (l : list R) :
  length (consecutive_differences l) = (length l - 1)%nat.
Proof.
  induction l as [|x [|y l] IH]; simpl in *; auto.
  rewrite IH. lia.
Qed.

(** The estimator of lines 122-131 never divides by zero nor takes the
    logarithm of a non-positive ratio, and computes [estimate_with] for the
    filter [above_threshold]. *)
Lemma lyapunov_estimate_ok (samples : list R) :
  lyapunov_estimate samples = Ok (estimate_with above_threshold samples).
Proof.
  unfold lyapunov_estimate, estimate_with.
  destruct (Nat.ltb_spec 10 (length samples)) as [H10 | H10];
    destruct (Nat.leb_spec (length samples) 10); try lia; [| reflexivity].
  set (valid := filter (fun x => Rgtb x 1e-10) samples).
  change (filter above_threshold samples) with valid.
  destruct (Nat.ltb_spec 5 (length valid)) as [H5 | H5];
    destruct (Nat.leb_spec (length valid) 5); try lia; [| reflexivity].
  rewrite map_result_log.
  - cbn [rbind]. unfold np_mean. rewrite np_diff_consecutive.
    rewrite np_div_ok; [reflexivity |].
    apply not_0_INR. rewrite consecutive_differences_length, length_map. lia.
  - apply Forall_forall. intros x Hx. apply filter_In in Hx.
    apply above_threshold_pos. apply Hx.
Qed.

Lemma analyze_chaos_ok (self : ThreeBodySimulator) :
  (3 <= length (positions self))%nat ->
  initial_separation self <> 0 ->
  let ratio :=
    norm (vsub (nth 1 (positions self) vzero) (nth 2 (positions self) vzero))
    / initial_separation self in
  let series := append (separations (chaos_data self)) ratio in
  analyze_chaos self =
  Ok (tt,
      set_chaos_data
        (Chaos
           (append (times (chaos_data self)) (time self / (DAY * 365.25)))
           series
           (append (lyapunov (chaos_data self))
              (estimate_with above_threshold (items series))))
        self).
Proof.
  intros Hn H0 ratio series. unfold analyze_chaos.
  rewrite (getitem_ok (positions self) 1 vzero) by lia.
  rewrite (getitem_ok (positions self) 2 vzero) by lia.
  cbn [rbind]. rewrite np_div_ok by exact H0. cbn [rbind].
  rewrite lyapunov_estimate_ok. reflexivity.
Qed.

(** ** One step *)

Lemma rk4_positions_length (m : list R) (h : R) (pos vel : array) :
  length vel = length pos ->
  length (rk4_positions (force_model m) h pos vel) = length pos.
Proof. intros H. unfold rk4_positions. shapes. Qed.

Lemma rk4_velocities_length (m : list R) (h : R) (pos vel : array) :
  length vel = length pos ->
  length (rk4_velocities (force_model m) h pos vel) = length pos.
Proof. intros H. unfold rk4_velocities. shapes. Qed.

(** The whole effect of one call on a steppable object. *)
Lemma update_system_ok (self : ThreeBodySimulator) :
  steppable self ->
  exists (ts : list (deque vec2)) (c : chaos),
    length ts = length (trajectories self) /\
    update_system self =
    Ok (tt,
        Sim (masses self)
            (rk4_positions (force_model (masses self)) (dt self)
               (positions self) (velocities self))
            (rk4_velocities (force_model (masses self)) (dt self)
               (positions self) (velocities self))
            (trajectory_length self) ts (dt self) (time self + dt self) c
            (initial_separation self) (colors self) (sizes self)).
Proof.
  intros [[Hm Hv] [H3 [Ht H0]]].
  rewrite update_system_integrates by (split; assumption).
  set (self1 := set_time _ _).
  assert (Hp1 : length (positions self1) = length (positions self)).
  { unfold self1. cbn [positions set_time set_velocities set_positions].
    apply rk4_positions_length. exact Hv. }
  destruct (store_trajectories_ok self1) as [ts [E Hts]].
  { rewrite Hp1. exact Ht. }
  erewrite bind_ok by exact E.
  rewrite analyze_chaos_ok.
  - eexists ts, _. split; [exact Hts |]. reflexivity.
  - cbn [positions set_trajectories]. rewrite Hp1. exact H3.
  - exact H0.
Qed.

(** C1: one call of [update_system] is one classical RK4 step of
    dpos/dt = vel, dvel/dt = accel(pos), where accel(p) is what
    [compute_accelerations] returns when the positions are [p].  On every
    well-shaped object the state after line 109 has the positions
    pos + (dt/6)(k1.pos + 2 k2.pos + 2 k3.pos + k4.pos), the velocities
    vel + (dt/6)(k1.vel + 2 k2.vel + 2 k3.vel + k4.vel) for the four stages
    [k1] .. [k4], and the time [time + dt]; the bookkeeping that follows
    (trajectories, chaos record) changes none of them, and the call returns
    whenever the tracked bodies 1 and 2 and the trajectory deques exist and
    the initial separation is not zero. *)
Theorem update_system_rk4_step (self : ThreeBodySimulator) :
  well_shaped self ->
  let accel := force_model (masses self) in
  let pos' :=
    rk4_positions accel (dt self) (positions self) (velocities self) in
  let vel' :=
    rk4_velocities accel (dt self) (positions self) (velocities self) in
  (forall p : array,
     length p = length (positions self) ->
     compute_accelerations (set_positions p self) =
     Ok (accel p, set_positions p self)) /\
  update_system self =
    bind store_trajectories (fun _ => analyze_chaos)
      (set_time (time self + dt self)
         (set_velocities vel' (set_positions pos' self))) /\
  ((3 <= length (positions self))%nat ->
   (length (positions self) <= length (trajectories self))%nat ->
   initial_separation self <> 0 ->
   exists self' : ThreeBodySimulator,
     update_system self = Ok (tt, self') /\
     positions self' = pos' /\
     velocities self' = vel' /\
     time self' = time self + dt self /\
     masses self' = masses self /\
     dt self' = dt self).
Proof.
  intros Hs accel pos' vel'. split; [| split].
  - intros p Hp. destruct Hs as [Hm _].
    rewrite compute_accelerations_ok; [reflexivity |].
    cbn [positions masses set_positions]. lia.
  - apply update_system_integrates. exact Hs.
  - intros H3 Ht H0.
    destruct (update_system_ok self) as [ts [c [_ E]]].
    { repeat split; try apply Hs; assumption. }
    eexists. split; [exact E |]. repeat split.
Qed.

Lemma sample_well_shaped : well_shaped sample.
Proof. split; reflexivity. Defined.

Lemma sample_steppable : steppable sample.
Proof.
  unfold steppable, well_shaped, sample. simpl.
  repeat split; try lia. lra.
Defined.

Lemma update_system_rk4_step_witness :
  exists self' : ThreeBodySimulator,
    update_system sample = Ok (tt, self') /\
    positions self' =
      rk4_positions (force_model (masses sample)) (dt sample)
        (positions sample) (velocities sample) /\
    velocities self' =
      rk4_velocities (force_model (masses sample)) (dt sample)
        (positions sample) (velocities sample) /\
    time self' = time sample + dt sample /\
    masses self' = masses sample /\
    dt self' = dt sample.
Proof.
  apply (update_system_rk4_step sample sample_well_shaped).
  - simpl. lia.
  - simpl. lia.
  - simpl. lra.
Defined.

(** ** Centre of mass *)

Lemma mass_weighted_sum_shift (c : vec2) (m : list R) :
  forall a : array,
    length m = length a ->
    mass_weighted_sum m (map (fun p => vsub p c) a) =
    vsub (mass_weighted_sum m a) (vscale (np_sum m) c).
Proof.
  unfold mass_weighted_sum.
  induction m as [|x m IH]; intros [|p a] H; simpl in *; try lia.
  - apply vec2_eq; simpl; ring.
  - rewrite IH by lia. apply vec2_eq; simpl; ring.
Qed.

Lemma recentered_balanced (m : list R) (a : array) :
  length m = length a -> np_sum m <> 0 ->
  mass_weighted_sum m (recentered m a) = vzero.
Proof.
  intros H H0. unfold recentered. rewrite mass_weighted_sum_shift by exact H.
  apply vec2_eq; unfold center_of; simpl; field; exact H0.
Qed.

Lemma adjust_center_of_mass_ok (self : ThreeBodySimulator) :
  well_shaped self -> np_sum (masses self) <> 0 ->
  adjust_center_of_mass self =
  Ok (tt,
      set_velocities (recentered (masses self) (velocities self))
        (set_positions (recentered (masses self) (positions self)) self)).
Proof.
  intros [Hm Hv] H0. unfold adjust_center_of_mass, rows_scale, vdiv.
  rewrite elementwise_ok by exact Hm. cbn [rbind].
  rewrite !np_div_ok by exact H0. cbn [rbind].
  rewrite elementwise_ok by lia. cbn [rbind].
  rewrite !np_div_ok by exact H0. cbn [rbind].
  reflexivity.
Qed.

Lemma hard_coded_total_mass :
  np_sum hard_coded_masses = 1.15 * MASS_SCALE.
Proof. unfold hard_coded_masses. simpl. lra. Qed.

Lemma MASS_SCALE_pos : 0 < MASS_SCALE.
Proof. unfold MASS_SCALE, SOLAR_MASS. lra. Qed.

(** The object that [__init__] builds. *)
Lemma init_ok :
  init blank =
  Ok (tt,
      let p := recentered hard_coded_masses hard_coded_positions in
      Sim hard_coded_masses p
          (recentered hard_coded_masses hard_coded_velocities)
          500 [deque_new 500; deque_new 500; deque_new 500]
          (TIME_SCALE * 100) 0.0
          (Chaos (deque_new 1000) (deque_new 1000) (deque_new 1000))
          (norm (vsub (nth 1 p vzero) (nth 2 p vzero)))
          ["gold"; "red"; "blue"]%string [20; 15; 12]%Z).
Proof.
  unfold init.
  do 3 (erewrite bind_ok; [| reflexivity]).
  erewrite bind_ok.
  2: { apply adjust_center_of_mass_ok.
       - split; reflexivity.
       - change (np_sum hard_coded_masses <> 0).
         rewrite hard_coded_total_mass. pose proof MASS_SCALE_pos. lra. }
  do 6 (erewrite bind_ok; [| reflexivity]).
  erewrite bind_ok; [| reflexivity].
  erewrite bind_ok; [| reflexivity].
  erewrite bind_ok; [| reflexivity].
  erewrite bind_ok; [| reflexivity].
  reflexivity.
Qed.

Lemma new_ok :
  ThreeBodySimulator_new [] =
  Ok (let p := recentered hard_coded_masses hard_coded_positions in
      Sim hard_coded_masses p
          (recentered hard_coded_masses hard_coded_velocities)
          500 [deque_new 500; deque_new 500; deque_new 500]
          (TIME_SCALE * 100) 0.0
          (Chaos (deque_new 1000) (deque_new 1000) (deque_new 1000))
          (norm (vsub (nth 1 p vzero) (nth 2 p vzero)))
          ["gold"; "red"; "blue"]%string [20; 15; 12]%Z).
Proof.
  unfold ThreeBodySimulator_new. rewrite init_ok. reflexivity.
Qed.

Lemma hard_coded_total_mass_nonzero : np_sum hard_coded_masses <> 0.
Proof.
  rewrite hard_coded_total_mass. pose proof MASS_SCALE_pos. lra.
Qed.

(** C3: [adjust_center_of_mass] succeeds on every well-shaped object of
    positive total mass and leaves it with SUM mass[i].position[i] = 0 and
    SUM mass[i].velocity[i] = 0, the masses untouched; in particular the
    object that the constructor returns has both sums equal to the zero
    vector. *)
Theorem center_of_mass_at_origin :
  (forall self : ThreeBodySimulator,
     well_shaped self ->
     0 < np_sum (masses self) ->
     exists self' : ThreeBodySimulator,
       adjust_center_of_mass self = Ok (tt, self') /\
       masses self' = masses self /\
       mass_weighted_sum (masses self') (positions self') = vzero /\
       mass_weighted_sum (masses self') (velocities self') = vzero) /\
  (exists sim : ThreeBodySimulator,
     ThreeBodySimulator_new [] = Ok sim /\
     mass_weighted_sum (masses sim) (positions sim) = vzero /\
     mass_weighted_sum (masses sim) (velocities sim) = vzero).
Proof.
  split.
  - intros self Hs Hpos.
    assert (H0 : np_sum (masses self) <> 0) by lra.
    rewrite adjust_center_of_mass_ok by assumption.
    destruct Hs as [Hm Hv].
    eexists. split; [reflexivity |].
    cbn [masses positions velocities set_positions set_velocities].
    split; [reflexivity |].
    split; apply recentered_balanced; auto. lia.
  - rewrite new_ok. eexists. split; [reflexivity |].
    cbn [masses positions velocities].
    split; apply recentered_balanced;
      auto using hard_coded_total_mass_nonzero.
Qed.

Lemma center_of_mass_at_origin_witness :
  exists self' : ThreeBodySimulator,
    adjust_center_of_mass sample = Ok (tt, self') /\
    masses self' = masses sample /\
    mass_weighted_sum (masses self') (positions self') = vzero /\
    mass_weighted_sum (masses self') (velocities self') = vzero.
Proof.
  apply (proj1 center_of_mass_at_origin sample).
  - split; reflexivity.
  - simpl. lra.
Defined.

(** ** Construction *)

(** C9, as the specification has it, fails: a call of the constructor
    with per-body arrays, here three positive masses and matching
    positions and velocities, is refused; the arrays are not
    constructor-time parameters. *)
Lemma constructor_refuses_arrays :
  let m := [1; 2; 3] in
  let p := [V2 0 0; V2 3 4; V2 0 1] in
  let v := [V2 0 0; V2 1 0; V2 0 1] in
  (Forall (fun x => 0 < x) m /\ length m = length p /\ length p = length v) /\
  ThreeBodySimulator_new [PyVector m; PyMatrix p; PyMatrix v] =
  Raise TypeError.
Proof.
  simpl. split; [| reflexivity].
  split; [| split; reflexivity].
  repeat constructor; lra.
Qed.

(** C9, amended: the constructor has no parameter.  The call without
    arguments always succeeds, and the object it returns holds the three
    hard-coded bodies: three positive masses, three positions and three
    velocities.  A call with any argument raises [TypeError] and produces
    no object. *)
Theorem constructor_takes_no_configuration :
  (exists sim : ThreeBodySimulator,
     ThreeBodySimulator_new [] = Ok sim /\
     masses sim = hard_coded_masses /\
     Forall (fun x => 0 < x) (masses sim) /\
     length (masses sim) = 3%nat /\
     length (positions sim) = 3%nat /\
     length (velocities sim) = 3%nat) /\
  (forall (a : pyvalue) (args : list pyvalue),
     ThreeBodySimulator_new (a :: args) = Raise TypeError).
Proof.
  split.
  - rewrite new_ok. eexists. split; [reflexivity |].
    cbn [masses positions velocities]. repeat split.
    unfold hard_coded_masses. pose proof MASS_SCALE_pos as H.
    repeat constructor; simpl; nra.
  - reflexivity.
Qed.

(** ** Force model: symmetry and softening *)

Lemma norm_vscale (c : R) (a : vec2) : norm (vscale c a) = Rabs c * norm a.
Proof.
  unfold norm, vscale. cbn [vx vy].
  replace ((c * vx a) ^ 2 + (c * vy a) ^ 2)
    with (Rsqr c * (vx a ^ 2 + vy a ^ 2)) by (unfold Rsqr; ring).
  rewrite sqrt_mult.
  - rewrite sqrt_Rsqr_abs. reflexivity.
  - apply Rle_0_sqr.
  - apply Rplus_le_le_0_compat; apply pow2_ge_0.
Qed.

Lemma softened_cube_nonzero (d : R) :
  sqrt (d ^ 2 + softening ^ 2) ^ 3 <> 0.
Proof.
  apply pow_nonzero. apply Rgt_not_eq. apply softened_distance_pos.
Qed.

(** |r| / sqrt(|r|^2 + eps^2)^3 <= 1 / eps^2 *)
Lemma softened_kernel_bound (r : R) :
  0 <= r ->
  r / sqrt (r ^ 2 + softening ^ 2) ^ 3 <= 1 / softening ^ 2.
Proof.
  intros Hr. pose proof softening_pos as He.
  set (d := sqrt (r ^ 2 + softening ^ 2)).
  assert (Hd : 0 < d) by apply softened_distance_pos.
  assert (Hd2 : d ^ 2 = r ^ 2 + softening ^ 2).
  { unfold d. rewrite <- (Rsqr_pow2 (sqrt _)). apply Rsqr_sqrt. nra. }
  assert (Hrd : r <= d) by nra.
  assert (He2 : 0 < softening ^ 2) by nra.
  assert (Hd3 : 0 < d ^ 3) by (apply pow_lt; exact Hd).
  assert (Hmain : r * softening ^ 2 <= d ^ 3).
  { replace (d ^ 3) with (d * d ^ 2) by ring. rewrite Hd2. nra. }
  apply (Rmult_le_reg_r (d ^ 3 * softening ^ 2)).
  - nra.
  - replace (r / d ^ 3 * (d ^ 3 * softening ^ 2)) with (r * softening ^ 2)
      by (field; repeat split; lra).
    replace (1 / softening ^ 2 * (d ^ 3 * softening ^ 2)) with (d ^ 3)
      by (field; lra).
    exact Hmain.
Qed.

(** C4: Newton's third law.  In every state and for every two distinct
    bodies [i] and [j], the force on [i] due to [j] (the mass of [i] times
    the term that [compute_accelerations] adds to [accelerations[i]] for
    the pair (i, j)) is exactly the opposite of the force on [j] due to
    [i]. *)
Theorem newton_third_law (self : ThreeBodySimulator) (i j : nat) :
  (length (positions self) <= length (masses self))%nat ->
  (i < length (positions self))%nat ->
  (j < length (positions self))%nat ->
  i <> j ->
  exists a_ij a_ji : vec2,
    pair_acceleration (masses self) (positions self) i j = Ok a_ij /\
    pair_acceleration (masses self) (positions self) j i = Ok a_ji /\
    vscale (nth i (masses self) 0) a_ij =
    vneg (vscale (nth j (masses self) 0) a_ji).
Proof.
  intros Hm Hi Hj _.
  rewrite !pair_acceleration_ok by assumption.
  eexists _, _. split; [reflexivity |]. split; [reflexivity |].
  unfold pair_term.
  rewrite (norm_vsub_sym (nth i (positions self) vzero)
             (nth j (positions self) vzero)).
  apply vec2_eq; cbn [vx vy vscale vneg vsub]; unfold Rdiv; ring.
Qed.

Lemma newton_third_law_witness :
  exists a_ij a_ji : vec2,
    pair_acceleration (masses sample) (positions sample) 0 1 = Ok a_ij /\
    pair_acceleration (masses sample) (positions sample) 1 0 = Ok a_ji /\
    vscale (nth 0 (masses sample) 0) a_ij =
    vneg (vscale (nth 1 (masses sample) 0) a_ji).
Proof.
  apply (newton_third_law sample 0 1); simpl; lia.
Defined.

(** C5: softening.  With eps = 1e-4 x DISTANCE_SCALE the denominator
    sqrt(|r|^2 + eps^2)^3 is never zero, so [compute_accelerations]
    returns for every positions array, coincident bodies included; and
    for every pair the term added to [accelerations[i]] has magnitude
    G_scaled.mass[j].|r| / sqrt(|r|^2 + eps^2)^3, which is at most
    G_scaled.mass[j] / eps^2. *)
Theorem softening_total_and_bounded (self : ThreeBodySimulator) :
  (length (positions self) <= length (masses self))%nat ->
  softening = 0.0001 * DISTANCE_SCALE /\
  (forall d : R, sqrt (d ^ 2 + softening ^ 2) ^ 3 <> 0) /\
  (exists acc : array, compute_accelerations self = Ok (acc, self)) /\
  (forall i j : nat,
     (i < length (positions self))%nat ->
     (j < length (positions self))%nat ->
     0 <= nth j (masses self) 0 ->
     exists a : vec2,
       pair_acceleration (masses self) (positions self) i j = Ok a /\
       let r := norm (vsub (nth j (positions self) vzero)
                        (nth i (positions self) vzero)) in
       norm a =
         G_scaled * nth j (masses self) 0 * r
         / sqrt (r ^ 2 + softening ^ 2) ^ 3 /\
       norm a <= G_scaled * nth j (masses self) 0 / softening ^ 2).
Proof.
  intros Hm. split; [reflexivity |].
  split; [exact softened_cube_nonzero |].
  split.
  - rewrite compute_accelerations_ok by exact Hm. eauto.
  - intros i j Hi Hj Hmj.
    rewrite pair_acceleration_ok by assumption.
    eexists. split; [reflexivity |].
    unfold pair_term. cbv zeta.
    set (r := norm (vsub (nth j (positions self) vzero)
                      (nth i (positions self) vzero))).
    set (mj := nth j (masses self) 0) in *.
    fold r.
    assert (Hr : 0 <= r) by apply norm_nonneg.
    pose proof (softened_cube_nonzero r) as Hd.
    pose proof (softened_distance_pos r) as Hs.
    pose proof G_scaled_pos as HG.
    assert (Hd3 : 0 < sqrt (r ^ 2 + softening ^ 2) ^ 3)
      by (apply pow_lt; exact Hs).
    assert (Hc : 0 <= G_scaled * mj / sqrt (r ^ 2 + softening ^ 2) ^ 3).
    { apply Rmult_le_pos; [nra |]. left. apply Rinv_0_lt_compat. exact Hd3. }
    rewrite norm_vscale. fold r. rewrite (Rabs_pos_eq _ Hc).
    split.
    + field. lra.
    + pose proof (softened_kernel_bound r Hr) as Hk.
      replace (G_scaled * mj / sqrt (r ^ 2 + softening ^ 2) ^ 3 * r)
        with (G_scaled * mj * (r / sqrt (r ^ 2 + softening ^ 2) ^ 3))
        by (field; lra).
      replace (G_scaled * mj / softening ^ 2)
        with (G_scaled * mj * (1 / softening ^ 2))
        by (field; pose proof softening_pos; lra).
      apply Rmult_le_compat_l; [nra | exact Hk].
Qed.

Lemma softening_total_and_bounded_witness :
  softening = 0.0001 * DISTANCE_SCALE /\
  (forall d : R, sqrt (d ^ 2 + softening ^ 2) ^ 3 <> 0) /\
  (exists acc : array, compute_accelerations collided = Ok (acc, collided)) /\
  (forall i j : nat,
     (i < length (positions collided))%nat ->
     (j < length (positions collided))%nat ->
     0 <= nth j (masses collided) 0 ->
     exists a : vec2,
       pair_acceleration (masses collided) (positions collided) i j = Ok a /\
       let r := norm (vsub (nth j (positions collided) vzero)
                        (nth i (positions collided) vzero)) in
       norm a =
         G_scaled * nth j (masses collided) 0 * r
         / sqrt (r ^ 2 + softening ^ 2) ^ 3 /\
       norm a <= G_scaled * nth j (masses collided) 0 / softening ^ 2).
Proof.
  apply (softening_total_and_bounded collided). simpl. lia.
Defined.

(** ** Energy monitor *)

Lemma np_sum_app (a b : list R) : np_sum (a ++ b) = np_sum a + np_sum b.
Proof.
  induction a as [|x a IH]; simpl.
  - ring.
  - rewrite IH. ring.
Qed.

Lemma kinetic_refines (m : list R) :
  forall v : array,
    0.5 * sum_all (zip_with vscale m (map vsquare v)) = kinetic_energy m v.
Proof.
  unfold kinetic_energy, sum_all.
  induction m as [|x m IH]; intros [|u v]; simpl; try lra.
  rewrite <- IH. rewrite norm_square. lra.
Qed.

Section EnergyLoops.
Variables (m : list R) (p : array).
Hypothesis same_length : length m = length p.

Lemma energy_inner_step (i j : nat) (potential : R) :
  (i < length m)%nat -> (j < length m)%nat ->
  nth i p vzero <> nth j p vzero ->
  subtract_pair m p i j potential =
  Ok (potential + pair_potential m p (i, j)).
Proof.
  intros Hi Hj Hne. unfold subtract_pair.
  rewrite (getitem_ok p j vzero), (getitem_ok p i vzero) by lia.
  cbn [rbind].
  rewrite (getitem_ok m i 0), (getitem_ok m j 0) by lia.
  cbn [rbind].
  rewrite np_div_ok.
  - cbn [rbind]. unfold pair_potential. cbn [fst snd].
    rewrite (norm_vsub_sym (nth j p vzero)). reflexivity.
  - intros H. apply norm_vsub_zero_iff in H. congruence.
Qed.

Lemma energy_inner_loop (i : nat) (Hi : (i < length m)%nat) :
  forall (js : list nat) (potential : R),
    (forall j, In j js ->
               (j < length m)%nat /\ nth i p vzero <> nth j p vzero) ->
    for_in js (subtract_pair m p i) potential =
    Ok (potential + np_sum (map (fun j => pair_potential m p (i, j)) js)).
Proof.
  induction js as [|j js IH]; intros potential Hjs; simpl.
  - f_equal. ring.
  - destruct (Hjs j (or_introl eq_refl)) as [Hj Hne].
    rewrite energy_inner_step by assumption. cbn [rbind].
    rewrite IH.
    + f_equal. ring.
    + intros k Hk. apply Hjs. right. exact Hk.
Qed.

Lemma energy_outer_loop :
  (forall i j, (i < j)%nat -> (j < length m)%nat ->
               nth i p vzero <> nth j p vzero) ->
  forall (k a : nat) (potential : R),
    (a + k <= length m)%nat ->
    for_in (seq a k) (subtract_pairs_from m p) potential =
    Ok (potential +
        np_sum (map (pair_potential m p)
                  (flat_map
                     (fun i => map (pair i) (range_from (i + 1) (length m)))
                     (seq a k)))).
Proof.
  intros Hsep. induction k as [|k IH]; intros a potential Hak; simpl.
  - f_equal. ring.
  - unfold subtract_pairs_from at 1. rewrite energy_inner_loop.
    + cbn [rbind]. rewrite IH by lia.
      rewrite map_app, np_sum_app, map_map. f_equal. ring.
    + lia.
    + intros j Hj. unfold range_from in Hj. apply in_seq in Hj.
      split; [lia |]. apply Hsep; lia.
Qed.

End EnergyLoops.

Lemma get_energy_ok (self : ThreeBodySimulator) :
  well_shaped self -> separated self ->
  get_energy self = Ok (total_energy self, self).
Proof.
  intros [Hm Hv] Hsep. unfold get_energy, rows_scale.
  rewrite elementwise_ok by (rewrite length_map; lia). cbn [rbind].
  unfold range.
  rewrite (energy_outer_loop (masses self) (positions self) Hm Hsep) by lia.
  cbn [rbind]. rewrite kinetic_refines.
  unfold total_energy, potential_energy, pairs, range.
  f_equal. f_equal. ring.
Qed.

Lemma get_energy_reads_only (self self' : ThreeBodySimulator) (e : R) :
  get_energy self = Ok (e, self') -> self' = self.
Proof.
  unfold get_energy.
  destruct (rows_scale _ _); [| discriminate]. cbn [rbind].
  destruct (for_in _ _ _); [| discriminate]. cbn [rbind].
  intros H. inversion H. reflexivity.
Qed.

Lemma not_coincident_separated (self : ThreeBodySimulator) :
  ~ coincident self -> separated self.
Proof.
  intros H i j Hij Hj He. apply H. exists i, j. auto.
Qed.

Lemma sample_separated : separated sample.
Proof.
  intros i j Hij Hj. simpl in Hj.
  destruct i as [|[|[|i]]]; destruct j as [|[|[|j]]]; try lia;
    simpl; intros H; inversion H; lra.
Defined.

Lemma collided_coincident : coincident collided.
Proof.
  exists 0%nat, 1%nat. simpl. repeat split; lia.
Defined.

(** C6: [get_energy] returns SUM 1/2.mass[i].|vel[i]|^2 plus
    SUM_{i<j} -G_scaled.mass[i].mass[j]/|pos[i]-pos[j]|, the potential
    taken with the exact pairwise distance (no softening length in it),
    on every well-shaped state whose bodies are at pairwise different
    positions; and whenever it returns, the simulator is the object it was
    before the call: no attribute is written. *)
Theorem get_energy_formula_and_purity (self : ThreeBodySimulator) :
  (well_shaped self -> separated self ->
   get_energy self =
   Ok (kinetic_energy (masses self) (velocities self) +
       potential_energy (masses self) (positions self), self)) /\
  (forall (e : R) (self' : ThreeBodySimulator),
     get_energy self = Ok (e, self') -> self' = self).
Proof.
  split.
  - apply get_energy_ok.
  - intros e self'. apply get_energy_reads_only.
Qed.

Lemma get_energy_formula_and_purity_witness :
  get_energy sample =
  Ok (kinetic_energy (masses sample) (velocities sample) +
      potential_energy (masses sample) (positions sample), sample).
Proof.
  apply (proj1 (get_energy_formula_and_purity sample)).
  - exact sample_well_shaped.
  - exact sample_separated.
Defined.

(** ** Chaos analyzer: the appended record *)

Lemma append_room {A : Type} (d : deque A) (x : A) :
  (len d < maxlen d)%nat -> items (append d x) = (items d ++ [x])%list.
Proof.
  unfold len, append. intros H. cbn [items].
  rewrite length_app. cbn [length].
  replace (length (items d) + 1 - maxlen d)%nat with 0%nat by lia.
  reflexivity.
Qed.

Lemma append_len {A : Type} (d : deque A) (x : A) :
  len (append d x) = Nat.min (len d + 1) (maxlen d).
Proof.
  unfold len, append. cbn [items].
  rewrite length_skipn, length_app. cbn [length]. lia.
Qed.

Lemma above_threshold_true (x : R) : 1e-10 < x -> above_threshold x = true.
Proof.
  intros H. unfold above_threshold.
  destruct (Rlt_dec 1e-10 x); [reflexivity | contradiction].
Qed.

Lemma above_threshold_false (x : R) : x <= 1e-10 -> above_threshold x = false.
Proof.
  intros H. unfold above_threshold.
  destruct (Rlt_dec 1e-10 x); [lra | reflexivity].
Qed.

Lemma not_below_threshold_true (x : R) :
  1e-10 <= x -> not_below_threshold x = true.
Proof.
  intros H. unfold not_below_threshold.
  destruct (Rlt_dec x 1e-10); [lra | reflexivity].
Qed.

Lemma estimate_short (keep : R -> bool) (samples : list R) :
  (length samples <= 10)%nat -> estimate_with keep samples = 0.
Proof.
  intros H. unfold estimate_with.
  destruct (Nat.leb_spec (length samples) 10); [reflexivity | lia].
Qed.

Lemma estimate_few_valid (keep : R -> bool) (samples : list R) :
  (length (filter keep samples) <= 5)%nat -> estimate_with keep samples = 0.
Proof.
  intros H. unfold estimate_with.
  destruct (Nat.leb (length samples) 10); [reflexivity |].
  destruct (Nat.leb_spec (length (filter keep samples)) 5);
    [reflexivity | lia].
Qed.

Lemma estimate_long (keep : R -> bool) (samples : list R) :
  (10 < length samples)%nat ->
  (5 < length (filter keep samples))%nat ->
  estimate_with keep samples =
  mean (consecutive_differences (map ln (filter keep samples))).
Proof.
  intros H10 H5. unfold estimate_with.
  destruct (Nat.leb_spec (length samples) 10); [lia |].
  destruct (Nat.leb_spec (length (filter keep samples)) 5); [lia |].
  reflexivity.
Qed.

Lemma norm_unit_x : norm (vsub (V2 0 0) (V2 1 0)) = 1.
Proof.
  unfold norm, vsub. cbn [vx vy].
  replace ((0 - 1) ^ 2 + (0 - 0) ^ 2) with 1 by ring. apply sqrt_1.
Qed.

Lemma ln_threshold_negative : ln 1e-10 < 0.
Proof.
  rewrite <- ln_1. apply ln_increasing; lra.
Qed.

(** C7, as the specification has it, fails at a ratio equal to 1e-10.
    The state [at_threshold] holds ten samples, the oldest exactly 1e-10;
    the update appends the eleventh.  With the ratios below 1e-10 filtered
    out, eleven valid samples would remain and the mean of the differences
    of their logarithms is not zero; the program drops the ratio 1e-10 as
    well and appends 0. *)
Lemma threshold_ratio_dropped :
  exists self' : ThreeBodySimulator,
    analyze_chaos at_threshold = Ok (tt, self') /\
    items (separations (chaos_data self')) =
      [1e-10; 1; 1; 1; 1; 1; 1; 1; 1; 1; 1] /\
    items (lyapunov (chaos_data self')) = [0; 0; 0; 0; 0; 0; 0; 0; 0; 0; 0] /\
    estimate_with not_below_threshold
      (items (separations (chaos_data self'))) <> 0.
Proof.
  rewrite analyze_chaos_ok; [| simpl; lia | simpl; lra].
  eexists. split; [reflexivity |].
  cbn [chaos_data set_chaos_data separations lyapunov].
  unfold at_threshold.
  cbn [chaos_data set_chaos_data separations lyapunov positions
       set_positions sample initial_separation nth].
  rewrite norm_unit_x. replace (1 / 1) with 1 by field.
  rewrite !append_room by (unfold len; cbn [items maxlen length]; lia).
  cbn [items app].
  split; [reflexivity |].
  assert (Hcode : estimate_with above_threshold
                    [1e-10; 1; 1; 1; 1; 1; 1; 1; 1; 1; 1] = 0).
  { rewrite estimate_long.
    - cbn [filter].
      rewrite above_threshold_false by lra.
      rewrite !above_threshold_true by lra.
      unfold mean. cbn [map consecutive_differences np_sum fold_right length].
      rewrite ln_1. field. apply not_0_INR. lia.
    - cbn [length]. lia.
    - cbn [filter].
      rewrite above_threshold_false by lra.
      rewrite !above_threshold_true by lra. cbn [length]. lia. }
  rewrite Hcode. split; [reflexivity |].
  rewrite estimate_long.
  - cbn [filter]. rewrite !not_below_threshold_true by lra.
    unfold mean. cbn [map consecutive_differences np_sum fold_right length].
    rewrite ln_1. pose proof ln_threshold_negative as Hln.
    rewrite INR_IZR_INZ. cbn [Z.of_nat Pos.of_succ_nat Pos.succ]. lra.
  - cbn [length]. lia.
  - cbn [filter]. rewrite !not_below_threshold_true by lra.
    cbn [length]. lia.
Qed.

(** C7, amended: on a state with bodies 1 and 2 and a non-zero initial
    separation, one chaos-analysis update appends exactly one record
    (time in years, ratio, lyapunov) to the three bounded series, where
    ratio is the current separation of bodies 1 and 2 divided by
    [initial_separation], and writes nothing else.  The appended lyapunov
    value is 0 when the series of ratios, the new one included, holds 10
    samples or fewer; with more than 10 samples only the ratios strictly
    greater than 1e-10 are valid (a ratio equal to 1e-10 is dropped), and
    the value is the mean of the differences of ln(ratio) over consecutive
    valid samples when more than 5 are valid, 0 otherwise. *)
Theorem analyze_chaos_appends_record (self : ThreeBodySimulator) :
  (3 <= length (positions self))%nat ->
  initial_separation self <> 0 ->
  let c := chaos_data self in
  let ratio :=
    norm (vsub (nth 1 (positions self) vzero) (nth 2 (positions self) vzero))
    / initial_separation self in
  let series := append (separations c) ratio in
  let valid := filter above_threshold (items series) in
  let value := estimate_with above_threshold (items series) in
  analyze_chaos self =
    Ok (tt,
        set_chaos_data
          (Chaos (append (times c) (time self / (DAY * 365.25)))
                 series
                 (append (lyapunov c) value))
          self) /\
  ((len (separations c) < maxlen (separations c))%nat ->
   items series = (items (separations c) ++ [ratio])%list) /\
  ((len series <= 10)%nat -> value = 0) /\
  ((10 < len series)%nat -> (length valid <= 5)%nat -> value = 0) /\
  ((10 < len series)%nat -> (5 < length valid)%nat ->
   value = mean (consecutive_differences (map ln valid))) /\
  (forall x : R, In x valid <-> In x (items series) /\ 1e-10 < x).
Proof.
  intros Hn H0 c ratio series valid value.
  split; [apply analyze_chaos_ok; assumption |].
  split; [apply append_room |].
  split; [apply estimate_short |].
  split; [intros _; apply estimate_few_valid |].
  split; [apply estimate_long |].
  intros x. unfold valid. rewrite filter_In.
  split; intros [Hin Hx]; split; auto.
  - apply above_threshold_pos in Hx as Hpos.
    unfold above_threshold in Hx.
    destruct (Rlt_dec 1e-10 x); [assumption | discriminate].
  - apply above_threshold_true. exact Hx.
Qed.

Lemma analyze_chaos_appends_record_witness :
  exists self' : ThreeBodySimulator,
    analyze_chaos sample = Ok (tt, self').
Proof.
  eexists.
  apply (analyze_chaos_appends_record sample).
  - simpl. lia.
  - simpl. lra.
Defined.

(** ** Determinism *)

Lemma update_system_keeps_steppable (self self' : ThreeBodySimulator) :
  steppable self -> update_system self = Ok (tt, self') -> steppable self'.
Proof.
  intros H E. destruct (update_system_ok self H) as [ts [c [Hts E']]].
  rewrite E' in E. inversion E. clear E E'.
  destruct H as [[Hm Hv] [H3 [Ht H0]]].
  unfold steppable, well_shaped.
  cbn [masses positions velocities trajectories initial_separation].
  rewrite rk4_positions_length, rk4_velocities_length by exact Hv.
  repeat split; auto; lia.
Qed.

(** Any number of steps from a steppable object runs to its end. *)
Lemma run_ok (n : nat) :
  forall self : ThreeBodySimulator,
    steppable self ->
    exists self' : ThreeBodySimulator,
      run n self = Ok (tt, self') /\ steppable self'.
Proof.
  induction n as [|n IH]; intros self H; simpl.
  - exists self. split; [reflexivity | exact H].
  - destruct (update_system_ok self H) as [ts [c [Hts E]]].
    erewrite bind_ok by exact E.
    apply IH. apply (update_system_keeps_steppable self); assumption.
Qed.

(** The trajectory of the bodies does not depend on the bookkeeping: the
    time, the trajectory buffers and the chaos series never feed back into
    positions and velocities. *)
Lemma physics_ignores_bookkeeping (n : nat) :
  forall s1 s2 : ThreeBodySimulator,
    steppable s1 -> steppable s2 -> same_physics s1 s2 ->
    exists s1' s2' : ThreeBodySimulator,
      run n s1 = Ok (tt, s1') /\ run n s2 = Ok (tt, s2') /\
      same_physics s1' s2'.
Proof.
  induction n as [|n IH]; intros s1 s2 H1 H2 Hp; simpl.
  - exists s1, s2. auto.
  - destruct (update_system_ok s1 H1) as [ts1 [c1 [_ E1]]].
    destruct (update_system_ok s2 H2) as [ts2 [c2 [_ E2]]].
    pose proof (update_system_keeps_steppable _ _ H1 E1) as H1'.
    pose proof (update_system_keeps_steppable _ _ H2 E2) as H2'.
    erewrite (bind_ok _ _ s1) by exact E1.
    erewrite (bind_ok _ _ s2) by exact E2.
    apply IH; auto.
    destruct Hp as [Hm [Hx [Hv Hd]]].
    unfold same_physics. cbn [masses positions velocities dt].
    rewrite Hm, Hx, Hv, Hd. auto.
Qed.

(** ** The methods on concrete objects *)

Example deque_evicts_oldest : append (Deque 2 [1; 2]) 3 = Deque 2 [2; 3].
Proof. reflexivity. Qed.

Example deque_of_no_capacity : append (Deque 0 []) 3 = Deque 0 [].
Proof. reflexivity. Qed.

Example range_from_1_3 : range_from 1 3 = [1; 2]%nat.
Proof. reflexivity. Qed.

Example pairs_of_three : pairs 3 = [(0, 1); (0, 2); (1, 2)]%nat.
Proof. reflexivity. Qed.

Example np_diff_three : np_diff [1; 4; 9] = [4 - 1; 9 - 4].
Proof. reflexivity. Qed.

Example getitem_past_the_end : getitem [1; 2; 3] 3 = Raise IndexError.
Proof. reflexivity. Qed.

Example add_of_mismatched_shapes :
  arr_add [V2 0 0; V2 1 1] [V2 0 0; V2 1 1; V2 2 2] = Raise ValueError.
Proof. reflexivity. Qed.

Example estimate_of_ten_samples :
  lyapunov_estimate [2; 2; 2; 2; 2; 2; 2; 2; 2; 2] = Ok 0.
Proof. reflexivity. Qed.

(** Bodies at the same position attract each other with a zero force. *)
Example coincident_pair_acceleration :
  pair_acceleration [1; 1] [V2 1 1; V2 1 1] 0 1 = Ok vzero.
Proof.
  rewrite pair_acceleration_ok by (simpl; lia).
  f_equal. unfold pair_term. cbn [nth].
  apply vec2_eq; cbn [vx vy vscale vsub vzero]; ring.
Qed.

Example sample_recentered :
  exists self' : ThreeBodySimulator,
    adjust_center_of_mass sample = Ok (tt, self') /\
    positions self' =
      [V2 (-1) (-11 / 6); V2 2 (13 / 6); V2 (-1) (-5 / 6)] /\
    velocities self' =
      [V2 (-1 / 3) (-1 / 2); V2 (2 / 3) (-1 / 2); V2 (-1 / 3) (1 / 2)].
Proof.
  rewrite adjust_center_of_mass_ok.
  - eexists. split; [reflexivity |].
    cbn [positions velocities set_positions set_velocities sample masses].
    unfold recentered, center_of, mass_weighted_sum.
    cbn [zip_with sum_axis0 fold_right map np_sum].
    split;
      repeat (apply (f_equal2 cons); [apply vec2_eq; simpl; field |]);
      reflexivity.
  - exact sample_well_shaped.
  - simpl. lra.
Qed.

Lemma norm_3_4 : norm (V2 3 4) = 5.
Proof.
  unfold norm. cbn [vx vy].
  replace (3 ^ 2 + 4 ^ 2) with (Rsqr 5) by (unfold Rsqr; ring).
  apply sqrt_Rsqr. lra.
Qed.

Example two_body_energy :
  get_energy two_body = Ok (3 / 2 - 2 * G_scaled / 5, two_body).
Proof.
  rewrite get_energy_ok.
  - f_equal. f_equal.
    unfold total_energy, kinetic_energy, potential_energy, pair_potential.
    cbn [masses velocities positions two_body zip_with pairs length
         flat_map range range_from seq map Nat.add Nat.sub app np_sum
         fold_right fst snd nth].
    rewrite !norm_square. cbn [vx vy].
    rewrite (norm_vsub_sym (V2 0 0) (V2 3 4)).
    replace (vsub (V2 3 4) (V2 0 0)) with (V2 3 4)
      by (apply vec2_eq; simpl; ring).
    rewrite norm_3_4. field.
  - split; reflexivity.
  - intros i j Hij Hj. simpl in Hj.
    destruct i as [|[|i]]; destruct j as [|[|j]]; try lia.
    simpl. intros H. inversion H. lra.
Qed.

(** * Further properties of the methods *)

(** ** Trajectory buffer: what lines 112-113 store *)

Lemma nth_record_positions (d : deque vec2) (ts : list (deque vec2)) :
  forall (p : array) (q : nat),
    (length p <= length ts)%nat ->
    nth q (record_positions ts p) d =
    if Nat.ltb q (length p) then append (nth q ts d) (nth q p vzero)
    else nth q ts d.
Proof.
  induction ts as [|t ts IH]; intros [|x p] [|q] H; simpl in *;
    try lia; auto.
  rewrite IH by lia.
  destruct (Nat.ltb_spec q (length p)), (Nat.ltb_spec (S q) (S (length p)));
    try lia; reflexivity.
Qed.

Lemma record_positions_length (ts : list (deque vec2)) :
  forall p : array, length (record_positions ts p) = length ts.
Proof.
  induction ts as [|t ts IH]; intros [|x p]; simpl; auto.
Qed.

Lemma store_trajectories_loop (self : ThreeBodySimulator) :
  (length (positions self) <= length (trajectories self))%nat ->
  forall (k a : nat) (ts : list (deque vec2)),
    (a + k <= length (positions self))%nat ->
    length ts = length (trajectories self) ->
    exists ts' : list (deque vec2),
      for_in (seq a k) (fun i self0 =>
        t <~ getitem (trajectories self0) i ;;
        p <~ getitem (positions self0) i ;;
        ts0 <~ setitem (trajectories self0) i (append t p) ;;
        Ok (set_trajectories ts0 self0)) (set_trajectories ts self)
      = Ok (set_trajectories ts' self) /\
      length ts' = length ts /\
      forall q : nat,
        nth q ts' (deque_new 0) =
        if andb (Nat.leb a q) (Nat.ltb q (a + k))
        then append (nth q ts (deque_new 0)) (nth q (positions self) vzero)
        else nth q ts (deque_new 0).
Proof.
  intros Ht. induction k as [|k IH]; intros a ts Hak Hlen; simpl.
  - exists ts. repeat split; auto. intros q.
    destruct (Nat.leb_spec a q); simpl; auto.
    destruct (Nat.ltb_spec q (a + 0)); auto. lia.
  - cbn [trajectories positions set_trajectories].
    rewrite (getitem_ok ts a (deque_new 0)) by lia. cbn [rbind].
    rewrite (getitem_ok (positions self) a vzero) by lia. cbn [rbind].
    rewrite setitem_ok by lia. cbn [rbind].
    replace (set_trajectories _ (set_trajectories ts self))
      with (set_trajectories
              (set_nth ts a
                 (append (nth a ts (deque_new 0))
                    (nth a (positions self) vzero))) self)
      by reflexivity.
    destruct (IH (S a)
                (set_nth ts a
                   (append (nth a ts (deque_new 0))
                      (nth a (positions self) vzero))))
      as [ts' [E [L Hq]]].
    + lia.
    + rewrite set_nth_length. exact Hlen.
    + exists ts'. split; [exact E |].
      split; [rewrite L; apply set_nth_length |].
      intros q. rewrite Hq. rewrite (nth_set_nth (deque_new 0)) by lia.
      destruct (Nat.eqb_spec q a) as [-> | Hne].
      * destruct (Nat.leb_spec (S a) a); [lia |]. simpl.
        destruct (Nat.leb_spec a a); [| lia]. simpl.
        destruct (Nat.ltb_spec a (a + S k)); [| lia]. reflexivity.
      * destruct (Nat.leb_spec (S a) q), (Nat.leb_spec a q); simpl;
          try lia; auto.
        replace (S (a + k)) with (a + S k)%nat by lia. reflexivity.
Qed.

Lemma store_trajectories_records (self : ThreeBodySimulator) :
  (length (positions self) <= length (trajectories self))%nat ->
  store_trajectories self =
  Ok (tt,
      set_trajectories
        (record_positions (trajectories self) (positions self)) self).
Proof.
  intros Ht. unfold store_trajectories, range.
  destruct (store_trajectories_loop self Ht (length (positions self)) 0
              (trajectories self)) as [ts' [E [L Hq]]]; try lia.
  replace (set_trajectories (trajectories self) self) with self in E
    by (destruct self; reflexivity).
  rewrite E. cbn [rbind]. do 3 f_equal.
  apply (nth_ext _ _ (deque_new 0) (deque_new 0)).
  - rewrite record_positions_length. exact L.
  - intros q _. rewrite Hq, nth_record_positions by exact Ht.
    destruct (Nat.leb_spec 0 q); [| lia]. reflexivity.
Qed.

(** One call of [update_system] on a steppable object returns [stepped]. *)
Lemma update_system_stepped (self : ThreeBodySimulator) :
  steppable self -> update_system self = Ok (tt, stepped self).
Proof.
  intros [[Hm Hv] [H3 [Ht H0]]].
  rewrite update_system_integrates by (split; assumption).
  set (self1 := set_time _ _).
  assert (Hp1 : length (positions self1) = length (positions self)).
  { unfold self1. cbn [positions set_time set_velocities set_positions].
    apply rk4_positions_length. exact Hv. }
  erewrite bind_ok.
  2: { apply store_trajectories_records. rewrite Hp1. exact Ht. }
  rewrite analyze_chaos_ok.
  - reflexivity.
  - cbn [positions set_trajectories]. rewrite Hp1. exact H3.
  - exact H0.
Qed.

Lemma stepped_steppable (self : ThreeBodySimulator) :
  steppable self -> steppable (stepped self).
Proof.
  intros [[Hm Hv] [H3 [Ht H0]]].
  unfold steppable, well_shaped, stepped.
  cbn [masses positions velocities trajectories initial_separation].
  rewrite rk4_positions_length, rk4_velocities_length by exact Hv.
  rewrite record_positions_length.
  repeat split; auto; lia.
Qed.

Lemma run_iterates (n : nat) :
  forall self : ThreeBodySimulator,
    steppable self ->
    run n self = Ok (tt, Nat.iter n stepped self) /\
    steppable (Nat.iter n stepped self).
Proof.
  induction n as [|n IH]; intros self H.
  - split; [reflexivity | exact H].
  - cbn [run]. erewrite bind_ok by (apply update_system_stepped; exact H).
    destruct (IH (stepped self) (stepped_steppable self H)) as [E S].
    rewrite Nat.iter_succ_r. split; [exact E | exact S].
Qed.

(** ** Force model: the forces cancel *)

Lemma np_sum_map_plus {A : Type} (f g : A -> R) (l : list A) :
  np_sum (map (fun i => f i + g i) l) = np_sum (map f l) + np_sum (map g l).
Proof.
  induction l as [|x l IH]; simpl; [ring | rewrite IH; ring].
Qed.

Lemma np_sum_map_scale {A : Type} (c : R) (f : A -> R) (l : list A) :
  np_sum (map (fun i => c * f i) l) = c * np_sum (map f l).
Proof.
  induction l as [|x l IH]; simpl; [ring | rewrite IH; ring].
Qed.

Lemma np_sum_map_ext {A : Type} (f g : A -> R) (l : list A) :
  (forall i, In i l -> f i = g i) ->
  np_sum (map f l) = np_sum (map g l).
Proof.
  intros H. f_equal. apply map_ext_in. exact H.
Qed.

Lemma np_sum_filter_others (f : nat -> R) (i : nat) (l : list nat) :
  np_sum (map f (filter (fun j => negb (Nat.eqb i j)) l)) =
  np_sum (map (fun j => if Nat.eqb i j then 0 else f j) l).
Proof.
  induction l as [|j l IH]; simpl; auto.
  destruct (Nat.eqb i j); simpl; rewrite IH; ring.
Qed.

(** A double sum of an antisymmetric table is zero. *)
Lemma antisymmetric_double_sum (h : nat -> nat -> R) :
  (forall i j, h i j = - h j i) ->
  forall n : nat,
    np_sum (map (fun i => np_sum (map (h i) (seq 0 n))) (seq 0 n)) = 0.
Proof.
  intros Hh. induction n as [|n IH].
  - reflexivity.
  - rewrite seq_S. cbn [Nat.add]. rewrite map_app, np_sum_app.
    cbn [map np_sum fold_right].
    rewrite (np_sum_map_ext _
               (fun i => np_sum (map (h i) (seq 0 n)) + h i n)).
    2: { intros i _. rewrite map_app, np_sum_app. simpl. ring. }
    rewrite np_sum_map_plus, IH.
    rewrite map_app, np_sum_app. cbn [map np_sum fold_right].
    rewrite (np_sum_map_ext (fun i => h i n) (fun i => -1 * h n i)).
    2: { intros i _. rewrite (Hh i n). ring. }
    rewrite np_sum_map_scale.
    pose proof (Hh n n). lra.
Qed.

Lemma zip_with_indexed {A B C : Type} (f : A -> B -> C) (da : A) (db : B)
  (a : list A) :
  forall b : list B,
    length a = length b ->
    zip_with f a b =
    map (fun i => f (nth i a da) (nth i b db)) (seq 0 (length a)).
Proof.
  induction a as [|x a IH]; intros [|y b] H; simpl in *; try lia; auto.
  f_equal. rewrite <- seq_shift, map_map. apply IH. lia.
Qed.

Lemma pair_term_antisymmetric (m : list R) (p : array) (i j : nat) :
  vscale (nth i m 0) (pair_term m p i j) =
  vneg (vscale (nth j m 0) (pair_term m p j i)).
Proof.
  unfold pair_term.
  rewrite (norm_vsub_sym (nth i p vzero) (nth j p vzero)).
  apply vec2_eq; cbn [vx vy vscale vneg vsub]; unfold Rdiv; ring.
Qed.

Lemma nth_force_model (m : list R) (p : array) (i : nat) :
  (i < length p)%nat -> nth i (force_model m p) vzero = force_row m p i.
Proof.
  intros H. unfold force_model, range.
  rewrite (nth_indep _ vzero (force_row m p 0))
    by (rewrite length_map, length_seq; exact H).
  rewrite (map_nth (force_row m p)), seq_nth by exact H. reflexivity.
Qed.

Section Component.
Variable proj : vec2 -> R.
Hypothesis proj_zero : proj vzero = 0.
Hypothesis proj_add : forall a b, proj (vadd a b) = proj a + proj b.
Hypothesis proj_scale : forall c a, proj (vscale c a) = c * proj a.
Hypothesis proj_neg : forall a, proj (vneg a) = - proj a.

Lemma proj_sum_axis0 (l : array) : proj (sum_axis0 l) = np_sum (map proj l).
Proof.
  induction l as [|x l IH]; simpl; auto.
  rewrite proj_add, IH. reflexivity.
Qed.

Lemma proj_mass_weighted_sum (m : list R) (a : array) :
  length m = length a ->
  proj (mass_weighted_sum m a) =
  np_sum (map (fun i => nth i m 0 * proj (nth i a vzero))
            (seq 0 (length m))).
Proof.
  intros H. unfold mass_weighted_sum.
  rewrite proj_sum_axis0, (zip_with_indexed vscale 0 vzero) by exact H.
  rewrite map_map. apply np_sum_map_ext. intros i _. apply proj_scale.
Qed.

Lemma proj_net_force (m : list R) (p : array) :
  length m = length p ->
  proj (mass_weighted_sum m (force_model m p)) = 0.
Proof.
  intros H.
  rewrite proj_mass_weighted_sum by (rewrite force_model_length; exact H).
  rewrite H.
  rewrite (np_sum_map_ext _
             (fun i =>
                np_sum
                  (map (fun j =>
                          if Nat.eqb i j then 0
                          else nth i m 0 * proj (pair_term m p i j))
                     (seq 0 (length p))))).
  - apply antisymmetric_double_sum. intros i j.
    rewrite (Nat.eqb_sym j i). destruct (Nat.eqb i j); [ring |].
    rewrite <- !proj_scale, pair_term_antisymmetric, proj_neg. reflexivity.
  - intros i Hi. apply in_seq in Hi.
    rewrite nth_force_model by lia.
    unfold force_row, others, range.
    rewrite proj_sum_axis0, map_map, <- np_sum_map_scale.
    rewrite (np_sum_filter_others
               (fun j => nth i m 0 * proj (pair_term m p i j))).
    reflexivity.
Qed.
End Component.

(** The forces on the bodies add up to zero, at any positions. *)
Lemma net_force_zero (m : list R) (p : array) :
  length m = length p ->
  mass_weighted_sum m (force_model m p) = vzero.
Proof.
  intros H. apply vec2_eq.
  - apply (proj_net_force vx); auto; intros; reflexivity.
  - apply (proj_net_force vy); auto; intros; reflexivity.
Qed.

(** ** RK4 integrator: momentum and centre of mass *)

Lemma mass_weighted_sum_plus (m : list R) :
  forall a b : array,
    length m = length a -> length a = length b ->
    mass_weighted_sum m (arr_plus a b) =
    vadd (mass_weighted_sum m a) (mass_weighted_sum m b).
Proof.
  unfold mass_weighted_sum, arr_plus.
  induction m as [|x m IH]; intros [|u a] [|v b] Ha Hb; simpl in *; try lia.
  - apply vec2_eq; simpl; ring.
  - rewrite IH by lia. apply vec2_eq; simpl; ring.
Qed.

Lemma mass_weighted_sum_scale (c : R) (m : list R) :
  forall a : array,
    mass_weighted_sum m (arr_scale c a) = vscale c (mass_weighted_sum m a).
Proof.
  unfold mass_weighted_sum, arr_scale.
  induction m as [|x m IH]; intros [|u a]; simpl;
    try (apply vec2_eq; simpl; ring).
  rewrite IH. apply vec2_eq; simpl; ring.
Qed.

Ltac weigh :=
  repeat first
    [ rewrite mass_weighted_sum_plus by shapes
    | rewrite mass_weighted_sum_scale
    | rewrite net_force_zero by shapes ].

Lemma rk4_keeps_momentum (m : list R) (h : R) (pos vel : array) :
  length m = length pos -> length vel = length pos ->
  mass_weighted_sum m (rk4_velocities (force_model m) h pos vel) =
  mass_weighted_sum m vel.
Proof.
  intros Hm Hv. unfold rk4_velocities, k4, k3, k2, k1. cbn [fst snd].
  weigh. apply vec2_eq; simpl; ring.
Qed.

Lemma rk4_moves_mass_moment (m : list R) (h : R) (pos vel : array) :
  length m = length pos -> length vel = length pos ->
  mass_weighted_sum m (rk4_positions (force_model m) h pos vel) =
  vadd (mass_weighted_sum m pos) (vscale h (mass_weighted_sum m vel)).
Proof.
  intros Hm Hv. unfold rk4_positions, k4, k3, k2, k1. cbn [fst snd].
  weigh. apply vec2_eq; simpl; field.
Qed.

Lemma stepped_momentum (self : ThreeBodySimulator) :
  well_shaped self ->
  total_momentum (stepped self) = total_momentum self /\
  mass_moment (stepped self) =
  vadd (mass_moment self) (vscale (dt self) (total_momentum self)).
Proof.
  intros [Hm Hv]. unfold total_momentum, mass_moment, stepped.
  cbn [masses positions velocities]. split.
  - apply rk4_keeps_momentum; assumption.
  - apply rk4_moves_mass_moment; assumption.
Qed.

(** X1: the accelerations that [compute_accelerations] returns satisfy
    SUM mass[i].acceleration[i] = 0, whatever the positions: the forces
    between the bodies cancel. *)
Theorem accelerations_cancel (self : ThreeBodySimulator) :
  length (masses self) = length (positions self) ->
  exists acc : array,
    compute_accelerations self = Ok (acc, self) /\
    length acc = length (positions self) /\
    mass_weighted_sum (masses self) acc = vzero.
Proof.
  intros H. rewrite compute_accelerations_ok by lia.
  eexists. split; [reflexivity |]. split.
  - apply force_model_length.
  - apply net_force_zero. exact H.
Qed.

Lemma accelerations_cancel_witness :
  exists acc : array,
    compute_accelerations collided = Ok (acc, collided) /\
    length acc = length (positions collided) /\
    mass_weighted_sum (masses collided) acc = vzero.
Proof.
  apply (accelerations_cancel collided). reflexivity.
Defined.

(** X2: one call of [update_system] conserves the total linear momentum
    SUM mass[i].velocity[i] exactly, and moves the mass moment
    SUM mass[i].position[i] by [dt] times the momentum. *)
Theorem update_system_conserves_momentum (self : ThreeBodySimulator) :
  steppable self ->
  exists self' : ThreeBodySimulator,
    update_system self = Ok (tt, self') /\
    total_momentum self' = total_momentum self /\
    mass_moment self' =
    vadd (mass_moment self) (vscale (dt self) (total_momentum self)).
Proof.
  intros H. rewrite update_system_stepped by exact H.
  eexists. split; [reflexivity |].
  apply stepped_momentum. apply H.
Qed.

Lemma update_system_conserves_momentum_witness :
  exists self' : ThreeBodySimulator,
    update_system sample = Ok (tt, self') /\
    total_momentum self' = total_momentum sample /\
    mass_moment self' =
    vadd (mass_moment sample) (vscale (dt sample) (total_momentum sample)).
Proof.
  apply (update_system_conserves_momentum sample). exact sample_steppable.
Defined.

Lemma iter_stepped_centered (n : nat) (self : ThreeBodySimulator) :
  steppable self ->
  total_momentum self = vzero -> mass_moment self = vzero ->
  total_momentum (Nat.iter n stepped self) = vzero /\
  mass_moment (Nat.iter n stepped self) = vzero.
Proof.
  intros H HP HX. induction n as [|n [IHP IHX]]; [auto |].
  change (Nat.iter (S n) stepped self)
    with (stepped (Nat.iter n stepped self)).
  destruct (run_iterates n self H) as [_ Hn].
  destruct (stepped_momentum (Nat.iter n stepped self)) as [EP EX];
    [apply Hn |].
  rewrite EP, EX, IHP, IHX.
  split; [reflexivity | apply vec2_eq; simpl; ring].
Qed.

Lemma balanced_steppable : steppable balanced.
Proof.
  unfold steppable, well_shaped, balanced. simpl.
  repeat split; try lia. lra.
Defined.

Lemma balanced_momentum : total_momentum balanced = vzero.
Proof. apply vec2_eq; simpl; ring. Defined.

Lemma balanced_moment : mass_moment balanced = vzero.
Proof. apply vec2_eq; simpl; ring. Defined.

(** X3: a system that starts with its centre of mass at the origin and no
    net momentum keeps both through any number of calls of
    [update_system]: in exact arithmetic the integrator causes no drift of
    the centre of mass. *)
Theorem centre_of_mass_never_drifts (n : nat) (self : ThreeBodySimulator) :
  steppable self ->
  total_momentum self = vzero ->
  mass_moment self = vzero ->
  exists self' : ThreeBodySimulator,
    run n self = Ok (tt, self') /\
    total_momentum self' = vzero /\
    mass_moment self' = vzero.
Proof.
  intros H HP HX. destruct (run_iterates n self H) as [E _].
  eexists. split; [exact E |].
  apply iter_stepped_centered; assumption.
Qed.

Lemma centre_of_mass_never_drifts_witness :
  exists self' : ThreeBodySimulator,
    run 50 balanced = Ok (tt, self') /\
    total_momentum self' = vzero /\
    mass_moment self' = vzero.
Proof.
  apply (centre_of_mass_never_drifts 50 balanced).
  - exact balanced_steppable.
  - exact balanced_momentum.
  - exact balanced_moment.
Defined.

(** ** Bookkeeping over many steps *)

Lemma append_maxlen {A : Type} (d : deque A) (x : A) :
  maxlen (append d x) = maxlen d.
Proof. reflexivity. Qed.

Lemma append_within_capacity {A : Type} (d : deque A) (x : A) :
  within_capacity (append d x).
Proof.
  unfold within_capacity. rewrite append_len, append_maxlen. lia.
Qed.

Lemma append_last {A : Type} (d : deque A) (x y : A) :
  (0 < maxlen d)%nat -> last (items (append d x)) y = x.
Proof.
  intros H. unfold append. cbn [items].
  set (l := (items d ++ [x])%list).
  assert (Hl : length l = S (length (items d))).
  { unfold l. rewrite length_app. simpl. lia. }
  assert (Hk : (length l - maxlen d <= length (items d))%nat) by lia.
  unfold l in *. rewrite skipn_app.
  replace (length (items d ++ [x]) - maxlen d - length (items d))%nat
    with 0%nat by lia.
  cbn [skipn]. apply last_last.
Qed.

(** A deque that every step appends to fills up to its [maxlen]. *)
Lemma iter_append_len {St A : Type} (inv : St -> Prop) (step : St -> St)
  (f : St -> deque A) (x : St -> A) :
  (forall s, inv s -> inv (step s)) ->
  (forall s, inv s -> f (step s) = append (f s) (x s)) ->
  forall (n : nat) (s : St),
    inv s -> within_capacity (f s) ->
    inv (Nat.iter n step s) /\
    maxlen (f (Nat.iter n step s)) = maxlen (f s) /\
    len (f (Nat.iter n step s)) = Nat.min (len (f s) + n) (maxlen (f s)).
Proof.
  intros Hinv Hf n s Hs Hc. unfold within_capacity in Hc.
  induction n as [|n [Hi [Hm Hl]]].
  - cbn [Nat.iter nat_rect]. repeat split; auto. lia.
  - change (Nat.iter (S n) step s) with (step (Nat.iter n step s)).
    split; [apply Hinv; exact Hi |].
    rewrite Hf by exact Hi. rewrite append_maxlen, append_len, Hm, Hl.
    split; [reflexivity | lia].
Qed.

Lemma iter_stepped_frame (n : nat) (self : ThreeBodySimulator) :
  masses (Nat.iter n stepped self) = masses self /\
  dt (Nat.iter n stepped self) = dt self /\
  initial_separation (Nat.iter n stepped self) = initial_separation self /\
  trajectory_length (Nat.iter n stepped self) = trajectory_length self /\
  colors (Nat.iter n stepped self) = colors self /\
  sizes (Nat.iter n stepped self) = sizes self /\
  time (Nat.iter n stepped self) = time self + INR n * dt self.
Proof.
  induction n as [|n IH].
  - cbn [Nat.iter nat_rect INR]. repeat split. ring.
  - destruct IH as [Hm [Hd [Hi [Hl [Hc [Hs Ht]]]]]].
    rewrite S_INR.
    change (Nat.iter (S n) stepped self)
      with (stepped (Nat.iter n stepped self)).
    set (s := Nat.iter n stepped self) in *.
    unfold stepped.
    cbn [masses dt initial_separation trajectory_length colors sizes time].
    rewrite Hd, Ht. repeat split; auto. ring.
Qed.

(** X4: [n] calls of [update_system] advance [time] by exactly [n] times
    [dt] and leave the masses, [dt], the initial separation, the
    trajectory length and the plotting attributes as they were: only
    positions, velocities, time and the buffers change. *)
Theorem run_advances_clock (n : nat) (self : ThreeBodySimulator) :
  steppable self ->
  exists self' : ThreeBodySimulator,
    run n self = Ok (tt, self') /\
    time self' = time self + INR n * dt self /\
    masses self' = masses self /\
    dt self' = dt self /\
    initial_separation self' = initial_separation self /\
    trajectory_length self' = trajectory_length self /\
    colors self' = colors self /\
    sizes self' = sizes self /\
    length (positions self') = length (positions self) /\
    length (velocities self') = length (velocities self).
Proof.
  intros H. destruct (run_iterates n self H) as [E Hn].
  eexists. split; [exact E |].
  destruct (iter_stepped_frame n self) as [Hm [Hd [Hi [Hl [Hc [Hs Ht]]]]]].
  repeat split; auto.
  - destruct H as [[H1 H2] _]. destruct Hn as [[H3 H4] _].
    rewrite Hm in H3. lia.
  - destruct H as [[H1 H2] _]. destruct Hn as [[H3 H4] _].
    rewrite Hm in H3. lia.
Qed.

Lemma run_advances_clock_witness :
  exists self' : ThreeBodySimulator,
    run 50 sample = Ok (tt, self') /\
    time self' = time sample + INR 50 * dt sample /\
    masses self' = masses sample /\
    dt self' = dt sample /\
    initial_separation self' = initial_separation sample /\
    trajectory_length self' = trajectory_length sample /\
    colors self' = colors sample /\
    sizes self' = sizes sample /\
    length (positions self') = length (positions sample) /\
    length (velocities self') = length (velocities sample).
Proof.
  apply (run_advances_clock 50 sample). exact sample_steppable.
Defined.

(** X5: the three chaos series grow together and stay bounded.  After [n]
    calls of [update_system] each of ['times'], ['separations'] and
    ['lyapunov'] keeps its [maxlen] and holds min(len + n, maxlen)
    records, so series that start aligned stay aligned, and none ever
    exceeds its capacity. *)
Theorem chaos_series_stay_aligned (n : nat) (self : ThreeBodySimulator) :
  steppable self ->
  within_capacity (times (chaos_data self)) ->
  within_capacity (separations (chaos_data self)) ->
  within_capacity (lyapunov (chaos_data self)) ->
  exists self' : ThreeBodySimulator,
    run n self = Ok (tt, self') /\
    let c := chaos_data self in
    let c' := chaos_data self' in
    len (times c') = Nat.min (len (times c) + n) (maxlen (times c)) /\
    len (separations c') =
      Nat.min (len (separations c) + n) (maxlen (separations c)) /\
    len (lyapunov c') =
      Nat.min (len (lyapunov c) + n) (maxlen (lyapunov c)) /\
    maxlen (times c') = maxlen (times c) /\
    maxlen (separations c') = maxlen (separations c) /\
    maxlen (lyapunov c') = maxlen (lyapunov c).
Proof.
  intros H Ht Hs Hl. destruct (run_iterates n self H) as [E _].
  eexists. split; [exact E |]. cbv zeta.
  destruct (iter_append_len (fun _ => True) stepped
              (fun s => times (chaos_data s))
              (fun s => (time s + dt s) / (DAY * 365.25))
              (fun _ _ => I) (fun _ _ => eq_refl) n self I Ht)
    as [_ [M1 L1]].
  destruct (iter_append_len (fun _ => True) stepped
              (fun s => separations (chaos_data s)) _
              (fun _ _ => I) (fun _ _ => eq_refl) n self I Hs)
    as [_ [M2 L2]].
  destruct (iter_append_len (fun _ => True) stepped
              (fun s => lyapunov (chaos_data s)) _
              (fun _ _ => I) (fun _ _ => eq_refl) n self I Hl)
    as [_ [M3 L3]].
  repeat split; assumption.
Qed.

Lemma chaos_series_stay_aligned_witness :
  exists self' : ThreeBodySimulator,
    run 50 sample = Ok (tt, self') /\
    let c := chaos_data sample in
    let c' := chaos_data self' in
    len (times c') = Nat.min (len (times c) + 50) (maxlen (times c)) /\
    len (separations c') =
      Nat.min (len (separations c) + 50) (maxlen (separations c)) /\
    len (lyapunov c') =
      Nat.min (len (lyapunov c) + 50) (maxlen (lyapunov c)) /\
    maxlen (times c') = maxlen (times c) /\
    maxlen (separations c') = maxlen (separations c) /\
    maxlen (lyapunov c') = maxlen (lyapunov c).
Proof.
  apply (chaos_series_stay_aligned 50 sample).
  - exact sample_steppable.
  - unfold within_capacity, len. simpl. lia.
  - unfold within_capacity, len. simpl. lia.
  - unfold within_capacity, len. simpl. lia.
Defined.

Lemma stepped_positions_length (self : ThreeBodySimulator) :
  steppable self ->
  length (positions (stepped self)) = length (positions self).
Proof.
  intros [[Hm Hv] _]. unfold stepped. cbn [positions].
  apply rk4_positions_length. exact Hv.
Qed.

Lemma stepped_trajectory (self : ThreeBodySimulator) (i : nat) :
  steppable self ->
  nth i (trajectories (stepped self)) (deque_new 0) =
  if Nat.ltb i (length (positions self))
  then append (nth i (trajectories self) (deque_new 0))
         (nth i (positions (stepped self)) vzero)
  else nth i (trajectories self) (deque_new 0).
Proof.
  intros H. pose proof (stepped_positions_length self H) as Hp.
  destruct H as [[Hm Hv] [H3 [Ht H0]]].
  rewrite <- Hp. unfold stepped at 1. cbn [trajectories].
  apply nth_record_positions.
  fold (positions (stepped self)). lia.
Qed.

(** X6: each call of [update_system] appends to the trajectory deque of
    every body the position the body has just reached, so the newest
    entry of a (non-degenerate) deque is the current position; deques
    without a body are not touched and the number of deques is kept. *)
Theorem update_system_records_positions (self : ThreeBodySimulator) :
  steppable self ->
  exists self' : ThreeBodySimulator,
    update_system self = Ok (tt, self') /\
    length (trajectories self') = length (trajectories self) /\
    (forall i : nat,
       (i < length (positions self))%nat ->
       let t := nth i (trajectories self) (deque_new 0) in
       let t' := nth i (trajectories self') (deque_new 0) in
       let p := nth i (positions self') vzero in
       t' = append t p /\
       within_capacity t' /\
       ((0 < maxlen t)%nat -> last (items t') vzero = p) /\
       ((len t < maxlen t)%nat -> items t' = (items t ++ [p])%list)) /\
    (forall i : nat,
       (length (positions self) <= i)%nat ->
       nth i (trajectories self') (deque_new 0) =
       nth i (trajectories self) (deque_new 0)).
Proof.
  intros H. rewrite update_system_stepped by exact H.
  eexists. split; [reflexivity |].
  split; [unfold stepped; cbn [trajectories]; apply record_positions_length |].
  split.
  - intros i Hi. cbv zeta. rewrite stepped_trajectory by exact H.
    destruct (Nat.ltb_spec i (length (positions self))); [| lia].
    split; [reflexivity |].
    split; [apply append_within_capacity |].
    split; [apply append_last | apply append_room].
  - intros i Hi. rewrite stepped_trajectory by exact H.
    destruct (Nat.ltb_spec i (length (positions self))); [lia |].
    reflexivity.
Qed.

Lemma update_system_records_positions_witness :
  exists self' : ThreeBodySimulator,
    update_system sample = Ok (tt, self') /\
    length (trajectories self') = length (trajectories sample) /\
    (forall i : nat,
       (i < length (positions sample))%nat ->
       let t := nth i (trajectories sample) (deque_new 0) in
       let t' := nth i (trajectories self') (deque_new 0) in
       let p := nth i (positions self') vzero in
       t' = append t p /\
       within_capacity t' /\
       ((0 < maxlen t)%nat -> last (items t') vzero = p) /\
       ((len t < maxlen t)%nat -> items t' = (items t ++ [p])%list)) /\
    (forall i : nat,
       (length (positions sample) <= i)%nat ->
       nth i (trajectories self') (deque_new 0) =
       nth i (trajectories sample) (deque_new 0)).
Proof.
  apply (update_system_records_positions sample). exact sample_steppable.
Defined.

(** X7: the trajectory deque of a body never outgrows its capacity: after
    [n] calls of [update_system] it keeps its [maxlen] and holds
    min(len + n, maxlen) positions, the oldest ones having left. *)
Theorem trajectories_stay_bounded (n i : nat) (self : ThreeBodySimulator) :
  steppable self ->
  (i < length (positions self))%nat ->
  within_capacity (nth i (trajectories self) (deque_new 0)) ->
  exists self' : ThreeBodySimulator,
    run n self = Ok (tt, self') /\
    let t := nth i (trajectories self) (deque_new 0) in
    let t' := nth i (trajectories self') (deque_new 0) in
    maxlen t' = maxlen t /\
    len t' = Nat.min (len t + n) (maxlen t).
Proof.
  intros H Hi Hc. destruct (run_iterates n self H) as [E _].
  eexists. split; [exact E |]. cbv zeta.
  destruct (iter_append_len
              (fun s => steppable s /\
                        length (positions s) = length (positions self))
              stepped
              (fun s => nth i (trajectories s) (deque_new 0))
              (fun s => nth i (positions (stepped s)) vzero))
    with (n := n) (s := self) as [_ [Hm Hl]]; auto.
  - intros s [Hs Hp]. split; [apply stepped_steppable; exact Hs |].
    rewrite stepped_positions_length; assumption.
  - intros s [Hs Hp]. rewrite stepped_trajectory by exact Hs.
    destruct (Nat.ltb_spec i (length (positions s))); [reflexivity | lia].
Qed.

Lemma trajectories_stay_bounded_witness :
  exists self' : ThreeBodySimulator,
    run 600 sample = Ok (tt, self') /\
    let t := nth 1 (trajectories sample) (deque_new 0) in
    let t' := nth 1 (trajectories self') (deque_new 0) in
    maxlen t' = maxlen t /\
    len t' = Nat.min (len t + 600) (maxlen t).
Proof.
  apply (trajectories_stay_bounded 600 1 sample).
  - exact sample_steppable.
  - simpl. lia.
  - unfold within_capacity, len. simpl. lia.
Defined.

(** ** Force model: only relative positions matter *)

Lemma nth_shifted (c : vec2) (p : array) (i : nat) :
  (i < length p)%nat ->
  nth i (map (fun q => vsub q c) p) vzero = vsub (nth i p vzero) c.
Proof.
  intros H.
  rewrite (nth_indep _ vzero (vsub vzero c)) by (rewrite length_map; exact H).
  apply (map_nth (fun q => vsub q c)).
Qed.

Lemma pair_term_shifted (m : list R) (p : array) (c : vec2) (i j : nat) :
  (i < length p)%nat -> (j < length p)%nat ->
  pair_term m (map (fun q => vsub q c) p) i j = pair_term m p i j.
Proof.
  intros Hi Hj. unfold pair_term. rewrite !nth_shifted by assumption.
  replace (vsub (vsub (nth j p vzero) c) (vsub (nth i p vzero) c))
    with (vsub (nth j p vzero) (nth i p vzero))
    by (apply vec2_eq; simpl; ring).
  reflexivity.
Qed.

Lemma force_model_shifted (m : list R) (p : array) (c : vec2) :
  force_model m (map (fun q => vsub q c) p) = force_model m p.
Proof.
  unfold force_model. rewrite length_map.
  apply map_ext_in. intros i Hi. unfold range in Hi. apply in_seq in Hi.
  unfold force_row. rewrite length_map. f_equal.
  apply map_ext_in. intros j Hj. unfold others, range in Hj.
  apply filter_In in Hj. destruct Hj as [Hj _]. apply in_seq in Hj.
  apply pair_term_shifted; lia.
Qed.

(** X8: the accelerations depend on the positions only through their
    differences: moving every body by the same vector [c] leaves the
    result of [compute_accelerations] unchanged. *)
Theorem accelerations_translation_invariant
  (self : ThreeBodySimulator) (c : vec2) :
  (length (positions self) <= length (masses self))%nat ->
  let moved :=
    set_positions (map (fun q => vsub q c) (positions self)) self in
  exists acc : array,
    compute_accelerations self = Ok (acc, self) /\
    compute_accelerations moved = Ok (acc, moved).
Proof.
  intros H moved.
  rewrite !compute_accelerations_ok;
    [| unfold moved; cbn [positions masses set_positions];
       rewrite length_map; exact H | exact H].
  eexists. split; [reflexivity |].
  unfold moved. cbn [positions masses set_positions].
  rewrite force_model_shifted. reflexivity.
Qed.

Lemma accelerations_translation_invariant_witness :
  exists acc : array,
    compute_accelerations sample = Ok (acc, sample) /\
    compute_accelerations
      (set_positions (map (fun q => vsub q (V2 7 (-2))) (positions sample))
         sample) =
    Ok (acc,
        set_positions (map (fun q => vsub q (V2 7 (-2))) (positions sample))
          sample).
Proof.
  apply (accelerations_translation_invariant sample (V2 7 (-2))).
  simpl. lia.
Defined.

(** ** Body state store: recentring twice *)

Lemma recentered_length (m : list R) (a : array) :
  length (recentered m a) = length a.
Proof. apply length_map. Qed.

Lemma recentered_fixpoint (m : list R) (a : array) :
  mass_weighted_sum m a = vzero -> recentered m a = a.
Proof.
  intros H. unfold recentered, center_of. rewrite H. cbn [vx vy vzero].
  rewrite <- (map_id a) at 2. apply map_ext. intros p.
  apply vec2_eq; simpl; unfold Rdiv; ring.
Qed.

Lemma recentered_idempotent (m : list R) (a : array) :
  length m = length a -> np_sum m <> 0 ->
  recentered m (recentered m a) = recentered m a.
Proof.
  intros H H0. apply recentered_fixpoint.
  apply recentered_balanced; assumption.
Qed.

(** X9: [adjust_center_of_mass] is idempotent and changes no relative
    position: a second call returns the object unchanged, the difference
    of the positions (and of the velocities) of any two bodies is what it
    was before the first call, and so are the accelerations. *)
Theorem adjust_center_of_mass_idempotent (self : ThreeBodySimulator) :
  well_shaped self ->
  np_sum (masses self) <> 0 ->
  exists self' : ThreeBodySimulator,
    adjust_center_of_mass self = Ok (tt, self') /\
    adjust_center_of_mass self' = Ok (tt, self') /\
    (forall i j : nat,
       (i < length (positions self))%nat ->
       (j < length (positions self))%nat ->
       vsub (nth i (positions self') vzero) (nth j (positions self') vzero) =
       vsub (nth i (positions self) vzero) (nth j (positions self) vzero) /\
       vsub (nth i (velocities self') vzero)
         (nth j (velocities self') vzero) =
       vsub (nth i (velocities self) vzero) (nth j (velocities self) vzero)) /\
    (exists acc : array,
       compute_accelerations self = Ok (acc, self) /\
       compute_accelerations self' = Ok (acc, self')).
Proof.
  intros Hs H0. pose proof Hs as [Hm Hv].
  rewrite adjust_center_of_mass_ok by assumption.
  eexists. split; [reflexivity |]. split; [| split].
  - rewrite adjust_center_of_mass_ok.
    + cbn [masses positions velocities set_positions set_velocities].
      rewrite !recentered_idempotent by (auto; lia).
      destruct self; reflexivity.
    + split; cbn [masses positions velocities set_positions set_velocities];
        rewrite !recentered_length; lia.
    + exact H0.
  - intros i j Hi Hj.
    cbn [positions velocities set_positions set_velocities].
    unfold recentered. rewrite !nth_shifted by lia.
    split; apply vec2_eq; simpl; ring.
  - rewrite !compute_accelerations_ok.
    + eexists. split; [reflexivity |].
      cbn [masses positions set_positions set_velocities].
      unfold recentered. rewrite force_model_shifted. reflexivity.
    + cbn [masses positions set_positions set_velocities].
      rewrite recentered_length. lia.
    + lia.
Qed.

Lemma adjust_center_of_mass_idempotent_witness :
  exists self' : ThreeBodySimulator,
    adjust_center_of_mass sample = Ok (tt, self') /\
    adjust_center_of_mass self' = Ok (tt, self') /\
    (forall i j : nat,
       (i < length (positions sample))%nat ->
       (j < length (positions sample))%nat ->
       vsub (nth i (positions self') vzero) (nth j (positions self') vzero) =
       vsub (nth i (positions sample) vzero)
         (nth j (positions sample) vzero) /\
       vsub (nth i (velocities self') vzero)
         (nth j (velocities self') vzero) =
       vsub (nth i (velocities sample) vzero)
         (nth j (velocities sample) vzero)) /\
    (exists acc : array,
       compute_accelerations sample = Ok (acc, sample) /\
       compute_accelerations self' = Ok (acc, self')).
Proof.
  apply (adjust_center_of_mass_idempotent sample).
  - exact sample_well_shaped.
  - simpl. lra.
Defined.

(** ** Exceptions *)

Lemma elementwise_mismatch {A B C : Type} (f : A -> B -> C) (a : list A)
  (b : list B) :
  length a <> length b -> elementwise f a b = Raise ValueError.
Proof.
  intros H. unfold elementwise.
  destruct (Nat.eqb_spec (length a) (length b)); [contradiction | auto].
Qed.

(** A loop over a state with an invariant raises as soon as one of its
    iterations does. *)
Lemma for_in_raises_keeping {St : Type} (P : St -> Prop) (bad : nat -> Prop)
  (e : exn) (body : nat -> St -> result St) (l : list nat) :
  (forall i st, In i l -> P st -> bad i -> body i st = Raise e) ->
  (forall i st, In i l -> P st -> ~ bad i ->
                exists st', body i st = Ok st' /\ P st') ->
  (forall i, In i l -> bad i \/ ~ bad i) ->
  (exists i, In i l /\ bad i) ->
  forall st, P st -> for_in l body st = Raise e.
Proof.
  induction l as [|i l IH]; intros Hbad Hgood Hdec [k [Hk Bk]] st Hst.
  - destruct Hk.
  - simpl. destruct (Hdec i (or_introl eq_refl)) as [Bi | Gi].
    + rewrite (Hbad i st (or_introl eq_refl) Hst Bi). reflexivity.
    + destruct (Hgood i st (or_introl eq_refl) Hst Gi) as [st' [E Hst']].
      rewrite E. cbn [rbind]. apply IH; auto.
      * intros j s Hj. apply Hbad. right. exact Hj.
      * intros j s Hj. apply Hgood. right. exact Hj.
      * intros j Hj. apply Hdec. right. exact Hj.
      * destruct Hk as [-> | Hk]; [contradiction |]. exists k. auto.
Qed.

Lemma pair_acceleration_with_mass (m : list R) (p : array) (i j : nat) :
  (i < length p)%nat -> (j < length p)%nat -> (j < length m)%nat ->
  pair_acceleration m p i j = Ok (pair_term m p i j).
Proof.
  intros Hi Hj Hm. unfold pair_acceleration, pair_term.
  rewrite (getitem_ok p j vzero Hj), (getitem_ok p i vzero Hi). cbn [rbind].
  rewrite (getitem_ok m j 0 Hm). cbn [rbind].
  rewrite np_div_ok; [reflexivity |]. apply softened_cube_nonzero.
Qed.

Lemma pair_acceleration_without_mass (m : list R) (p : array) (i j : nat) :
  (i < length p)%nat -> (j < length p)%nat -> (length m <= j)%nat ->
  pair_acceleration m p i j = Raise IndexError.
Proof.
  intros Hi Hj Hm. unfold pair_acceleration.
  rewrite (getitem_ok p j vzero Hj), (getitem_ok p i vzero Hi). cbn [rbind].
  rewrite (getitem_out m j Hm). reflexivity.
Qed.

(** X10: [compute_accelerations] when masses are missing.  With at most
    one body no mass is read and the result is all zeros; with two bodies
    or more and fewer masses than positions the call raises
    [IndexError]. *)
Theorem compute_accelerations_missing_masses (self : ThreeBodySimulator) :
  ((length (positions self) <= 1)%nat ->
   compute_accelerations self =
   Ok (np_zeros (length (positions self)), self)) /\
  ((2 <= length (positions self))%nat ->
   (length (masses self) < length (positions self))%nat ->
   compute_accelerations self = Raise IndexError).
Proof.
  unfold compute_accelerations, accelerations_of.
  set (m := masses self). set (p := positions self). split.
  - intros H. destruct p as [|x [|y p]]; simpl in *; try lia; reflexivity.
  - intros H2 Hm.
    destruct (length p) as [|n] eqn:En; [lia |].
    unfold range at 1. cbn [seq for_in].
    rewrite (for_in_raises_keeping
               (fun st : array => length st = S n)
               (fun j => (length m <= j)%nat /\ j <> 0%nat) IndexError).
    + reflexivity.
    + intros j st Hj Hst [Hbad Hne]. unfold range in Hj. apply in_seq in Hj.
      unfold accumulate_pair.
      destruct (Nat.eqb_spec 0 j); [lia |]. cbn [negb].
      rewrite pair_acceleration_without_mass by lia. reflexivity.
    + intros j st Hj Hst Hgood. unfold range in Hj. apply in_seq in Hj.
      unfold accumulate_pair.
      destruct (Nat.eqb_spec 0 j); cbn [negb]; [eauto |].
      rewrite pair_acceleration_with_mass by lia. cbn [rbind].
      rewrite iadd_row_ok by lia. eexists. split; [reflexivity |].
      rewrite set_nth_length. exact Hst.
    + intros j _. lia.
    + exists (Nat.max 1 (length m)). split; [| lia].
      unfold range. apply in_seq. lia.
    + apply repeat_length.
Qed.

Lemma compute_accelerations_missing_masses_witness :
  compute_accelerations (set_masses [1; 2] sample) = Raise IndexError.
Proof.
  apply (proj2 (compute_accelerations_missing_masses
                  (set_masses [1; 2] sample))); simpl; lia.
Defined.

(** X11: shapes that [adjust_center_of_mass] refuses.  It raises
    [ValueError] when the masses and the positions differ in number and
    neither is a single row, and when the velocities differ in number
    from the masses (neither a single row) of a well-formed system of
    non-zero total mass; with three arrays of one length and a non-zero
    total mass it succeeds. *)
Theorem adjust_center_of_mass_failures (self : ThreeBodySimulator) :
  (length (masses self) <> length (positions self) ->
   length (masses self) <> 1%nat ->
   length (positions self) <> 1%nat ->
   adjust_center_of_mass self = Raise ValueError) /\
  (length (masses self) = length (positions self) ->
   np_sum (masses self) <> 0 ->
   length (masses self) <> length (velocities self) ->
   length (masses self) <> 1%nat ->
   length (velocities self) <> 1%nat ->
   adjust_center_of_mass self = Raise ValueError) /\
  (length (masses self) = length (positions self) ->
   np_sum (masses self) <> 0 ->
   length (masses self) = length (velocities self) ->
   exists self' : ThreeBodySimulator,
     adjust_center_of_mass self = Ok (tt, self')).
Proof.
  unfold adjust_center_of_mass, rows_scale, vdiv.
  split; [| split].
  - intros H _ _. rewrite elementwise_mismatch by exact H. reflexivity.
  - intros H H0 Hv _ _. rewrite elementwise_ok by exact H. cbn [rbind].
    rewrite !np_div_ok by exact H0. cbn [rbind].
    rewrite elementwise_mismatch by exact Hv. reflexivity.
  - intros H H0 Hv. rewrite elementwise_ok by exact H. cbn [rbind].
    rewrite !np_div_ok by exact H0. cbn [rbind].
    rewrite elementwise_ok by exact Hv. cbn [rbind].
    rewrite !np_div_ok by exact H0. cbn [rbind]. eauto.
Qed.

Lemma adjust_center_of_mass_failures_witness :
  adjust_center_of_mass (set_masses [1; 2] sample) = Raise ValueError.
Proof.
  apply (proj1 (adjust_center_of_mass_failures (set_masses [1; 2] sample)));
    simpl; lia.
Defined.

Lemma analyze_chaos_too_few (self : ThreeBodySimulator) :
  (length (positions self) < 3)%nat ->
  analyze_chaos self = Raise IndexError.
Proof.
  intros H. unfold analyze_chaos.
  destruct (le_lt_dec (length (positions self)) 1) as [H1 | H1].
  - rewrite (getitem_out _ 1) by lia. reflexivity.
  - rewrite (getitem_ok _ 1 vzero) by lia. cbn [rbind].
    rewrite (getitem_out _ 2) by lia. reflexivity.
Qed.

(** X12: [analyze_chaos] needs three bodies.  It raises [IndexError]
    when the simulator has fewer than three positions (it reads
    positions 1 and 2), and with three or more and a non-zero initial
    separation it succeeds, whatever the series hold. *)
Theorem analyze_chaos_failures (self : ThreeBodySimulator) :
  ((length (positions self) < 3)%nat ->
   analyze_chaos self = Raise IndexError) /\
  ((3 <= length (positions self))%nat ->
   initial_separation self <> 0 ->
   exists self' : ThreeBodySimulator, analyze_chaos self = Ok (tt, self')).
Proof.
  split.
  - apply analyze_chaos_too_few.
  - intros H H0. rewrite analyze_chaos_ok by assumption. eauto.
Qed.

Lemma analyze_chaos_failures_witness :
  analyze_chaos two_body = Raise IndexError.
Proof.
  apply (proj1 (analyze_chaos_failures two_body)). simpl. lia.
Defined.

(** X13: the edges of [get_energy].  It raises [ValueError] when masses
    and velocities differ in number and neither is a single row; with at
    most one body there is no pair, no position is read and the result is
    the kinetic energy alone; with two bodies or more and at most one
    position it raises [IndexError]. *)
Theorem get_energy_edges (self : ThreeBodySimulator) :
  (length (masses self) <> length (velocities self) ->
   length (masses self) <> 1%nat ->
   length (velocities self) <> 1%nat ->
   get_energy self = Raise ValueError) /\
  (length (masses self) = length (velocities self) ->
   (length (masses self) <= 1)%nat ->
   get_energy self =
   Ok (kinetic_energy (masses self) (velocities self), self)) /\
  (length (masses self) = length (velocities self) ->
   (2 <= length (masses self))%nat ->
   (length (positions self) <= 1)%nat ->
   get_energy self = Raise IndexError).
Proof.
  unfold get_energy, rows_scale. split; [| split].
  - intros H _ _. rewrite elementwise_mismatch; [reflexivity |].
    rewrite length_map. exact H.
  - intros H H1. rewrite elementwise_ok by (rewrite length_map; exact H).
    cbn [rbind]. rewrite kinetic_refines.
    destruct (masses self) as [|x [|y m]]; simpl in H1; try lia;
      cbn [length range seq for_in subtract_pairs_from range_from Nat.add
           Nat.sub rbind]; do 2 f_equal; ring.
  - intros H H2 Hp. rewrite elementwise_ok by (rewrite length_map; exact H).
    cbn [rbind].
    destruct (masses self) as [|x [|y m]] eqn:Em; simpl in H2; try lia.
    unfold range. cbn [length seq for_in].
    unfold subtract_pairs_from at 1, range_from.
    cbn [length Nat.add Nat.sub seq for_in].
    unfold subtract_pair at 1.
    rewrite (getitem_out (positions self) 1) by lia. reflexivity.
Qed.

Lemma get_energy_edges_witness :
  get_energy (set_velocities [V2 1 0; V2 0 1] sample) = Raise ValueError.
Proof.
  apply (proj1 (get_energy_edges (set_velocities [V2 1 0; V2 0 1] sample)));
    simpl; lia.
Defined.

Lemma update_system_to_bookkeeping (self : ThreeBodySimulator) :
  well_shaped self ->
  (length (positions self) <= length (trajectories self))%nat ->
  exists self1 : ThreeBodySimulator,
    update_system self = analyze_chaos self1 /\
    length (positions self1) = length (positions self) /\
    initial_separation self1 = initial_separation self.
Proof.
  intros Hs Ht. rewrite update_system_integrates by exact Hs.
  set (self0 := set_time _ _).
  assert (Hp : length (positions self0) = length (positions self)).
  { unfold self0. cbn [positions set_time set_velocities set_positions].
    apply rk4_positions_length. apply Hs. }
  erewrite bind_ok.
  2: { apply store_trajectories_records. rewrite Hp. exact Ht. }
  eexists. split; [reflexivity |]. split; [exact Hp | reflexivity].
Qed.

(** X14: when [update_system] fails although the masses cover the
    positions.  Velocities with another number of rows than the
    positions raise [ValueError], and a well-shaped simulator of fewer
    than three bodies raises [IndexError] in the chaos analysis that ends
    the step. *)
Theorem update_system_failures (self : ThreeBodySimulator) :
  ((length (positions self) <= length (masses self))%nat ->
   length (velocities self) <> length (positions self) ->
   update_system self = Raise ValueError) /\
  (well_shaped self ->
   (length (positions self) <= length (trajectories self))%nat ->
   (length (positions self) < 3)%nat ->
   update_system self = Raise IndexError).
Proof.
  split.
  - intros Hm Hv. unfold update_system.
    erewrite bind_ok; [| apply derivatives_ok; [lia | reflexivity]].
    cbv beta iota zeta.
    erewrite bind_ok; [| reflexivity].
    apply bind_raise. unfold plus_scaled, arr_add.
    rewrite elementwise_mismatch; [reflexivity |].
    cbn [deref]. rewrite arr_scale_length. auto.
  - intros Hs Ht H3.
    destruct (update_system_to_bookkeeping self Hs Ht) as [s1 [E [Hp _]]].
    rewrite E. apply analyze_chaos_too_few. lia.
Qed.

Lemma update_system_failures_witness :
  update_system two_body = Raise IndexError.
Proof.
  apply (proj2 (update_system_failures two_body)).
  - split; reflexivity.
  - simpl. lia.
  - simpl. lia.
Defined.

(** ** Chaos analyzer: what the estimate depends on *)

Lemma np_sum_consecutive_differences (l : list R) :
  l <> [] ->
  np_sum (consecutive_differences l) = last l 0 - hd 0 l.
Proof.
  induction l as [|x [|y l] IH]; intros H.
  - contradiction.
  - simpl. ring.
  - change (consecutive_differences (x :: y :: l))
      with ((y - x) :: consecutive_differences (y :: l)).
    change (last (x :: y :: l) 0) with (last (y :: l) 0).
    cbn [np_sum fold_right hd].
    fold (np_sum (consecutive_differences (y :: l))).
    rewrite IH by discriminate. cbn [hd]. ring.
Qed.

Lemma last_map_ln (l : list R) :
  l <> [] -> last (map ln l) 0 = ln (last l 0).
Proof.
  induction l as [|x [|y l] IH]; intros H.
  - contradiction.
  - reflexivity.
  - change (last (map ln (x :: y :: l)) 0) with (last (map ln (y :: l)) 0).
    change (last (x :: y :: l) 0) with (last (y :: l) 0).
    apply IH. discriminate.
Qed.

Lemma hd_map_ln (l : list R) : l <> [] -> hd 0 (map ln l) = ln (hd 0 l).
Proof. destruct l; [contradiction | reflexivity]. Qed.

(** X15: the Lyapunov estimate telescopes.  With more than 10 samples of
    which more than 5 are valid, the mean of the differences of the
    logarithms is (ln(last valid) - ln(first valid)) / (k - 1) for the
    [k] valid samples: the value depends on the first and the last valid
    ratio and on the number of valid ones, not on the ratios between. *)
Theorem lyapunov_estimate_telescopes (samples : list R) :
  (10 < length samples)%nat ->
  let valid := filter (fun x => Rgtb x 1e-10) samples in
  (5 < length valid)%nat ->
  lyapunov_estimate samples =
  Ok ((ln (last valid 0) - ln (hd 0 valid)) / INR (length valid - 1)) /\
  lyapunov_estimate samples =
  Ok (ln (last valid 0 / hd 0 valid) / INR (length valid - 1)).
Proof.
  intros H10 valid H5.
  assert (Hne : valid <> []).
  { intros E. apply (f_equal (@length R)) in E. simpl in E. lia. }
  assert (Hpos : forall x, In x valid -> 0 < x).
  { intros x Hx. unfold valid in Hx. apply filter_In in Hx.
    apply above_threshold_pos. apply Hx. }
  assert (E : lyapunov_estimate samples =
              Ok ((ln (last valid 0) - ln (hd 0 valid))
                  / INR (length valid - 1))).
  { rewrite lyapunov_estimate_ok, estimate_long by assumption.
    fold valid. unfold mean.
    rewrite np_sum_consecutive_differences
      by (intros E0; apply map_eq_nil in E0; contradiction).
    rewrite last_map_ln, hd_map_ln by exact Hne.
    rewrite consecutive_differences_length, length_map. reflexivity. }
  split; [exact E |]. rewrite E. clear E. clearbody valid. do 2 f_equal.
  assert (Hlast : 0 < last valid 0).
  { apply Hpos. destruct (exists_last Hne) as [l' [a Ha]].
    rewrite Ha, last_last. apply in_or_app. right. left. reflexivity. }
  assert (Hhd : 0 < hd 0 valid).
  { apply Hpos. destruct valid; [contradiction | left; reflexivity]. }
  unfold Rdiv. rewrite ln_mult, ln_Rinv.
  - ring.
  - exact Hhd.
  - exact Hlast.
  - apply Rinv_0_lt_compat. exact Hhd.
Qed.

Lemma lyapunov_estimate_telescopes_witness :
  let samples := [1; 5; 0; 7; 3; 0; 2; 9; 4; 6; 8] in
  let valid := filter (fun x => Rgtb x 1e-10) samples in
  lyapunov_estimate samples =
  Ok ((ln (last valid 0) - ln (hd 0 valid)) / INR (length valid - 1)).
Proof.
  apply (lyapunov_estimate_telescopes [1; 5; 0; 7; 3; 0; 2; 9; 4; 6; 8]).
  - simpl. lia.
  - cbn [filter]. rewrite !Rgtb_above.
    rewrite !(above_threshold_false 0) by lra.
    rewrite !above_threshold_true by lra.
    simpl. lia.
Defined.

(** ** The simulator that the program builds *)

Lemma new_constructed : ThreeBodySimulator_new [] = Ok constructed.
Proof. apply new_ok. Qed.

Lemma DISTANCE_SCALE_pos : 0 < DISTANCE_SCALE.
Proof. unfold DISTANCE_SCALE, AU. lra. Qed.

Lemma constructed_steppable : steppable constructed.
Proof.
  unfold steppable, well_shaped, constructed.
  cbn [masses positions velocities trajectories initial_separation].
  rewrite !recentered_length.
  repeat split; try (simpl; lia).
  intros H. apply norm_vsub_zero_iff in H.
  unfold recentered in H.
  rewrite !nth_shifted in H by (simpl; lia).
  apply (f_equal vx) in H.
  unfold hard_coded_positions, arr_times in H.
  cbn [map nth vx vy vsub] in H.
  pose proof DISTANCE_SCALE_pos. lra.
Qed.

Lemma constructed_centered :
  total_momentum constructed = vzero /\ mass_moment constructed = vzero.
Proof.
  unfold total_momentum, mass_moment, constructed.
  cbn [masses positions velocities].
  split; apply recentered_balanced;
    auto using hard_coded_total_mass_nonzero.
Qed.

(** X16: the simulation that the program starts can be run for ever.  The
    constructor call returns an object from which any number [n] of
    calls of [update_system] return without an exception, and after
    them the time is [n] steps of 100 days, the centre of mass is still at
    the origin with no net momentum, the chaos series hold min(n, 1000)
    records each, and every trajectory deque holds min(n, 500)
    positions. *)
Theorem constructed_simulation_runs (n : nat) :
  exists sim self' : ThreeBodySimulator,
    ThreeBodySimulator_new [] = Ok sim /\
    run n sim = Ok (tt, self') /\
    time self' = INR n * (TIME_SCALE * 100) /\
    total_momentum self' = vzero /\
    mass_moment self' = vzero /\
    len (times (chaos_data self')) = Nat.min n 1000 /\
    len (separations (chaos_data self')) = Nat.min n 1000 /\
    len (lyapunov (chaos_data self')) = Nat.min n 1000 /\
    (forall i : nat,
       (i < 3)%nat ->
       len (nth i (trajectories self') (deque_new 0)) = Nat.min n 500).
Proof.
  exists constructed, (Nat.iter n stepped constructed).
  pose proof constructed_steppable as H.
  destruct constructed_centered as [HP HX].
  split; [apply new_constructed |].
  split; [apply run_iterates; exact H |].
  split.
  { destruct (iter_stepped_frame n constructed) as [_ [_ [_ [_ [_ [_ Ht]]]]]].
    rewrite Ht. cbn [time dt constructed]. lra. }
  split; [apply iter_stepped_centered; assumption |].
  split; [apply iter_stepped_centered; assumption |].
  assert (Hc : forall f : chaos -> deque R,
             f (chaos_data constructed) = deque_new 1000 ->
             (forall s, exists x,
                f (chaos_data (stepped s)) = append (f (chaos_data s)) x) ->
             len (f (chaos_data (Nat.iter n stepped constructed))) =
             Nat.min n 1000).
  { intros f Hf Hstep. clear H HP HX.
    assert (G : forall k,
              maxlen (f (chaos_data (Nat.iter k stepped constructed))) =
                1000%nat /\
              len (f (chaos_data (Nat.iter k stepped constructed))) =
                Nat.min k 1000).
    { induction k as [|k [Gm Gl]].
      - cbn [Nat.iter nat_rect]. rewrite Hf. split; reflexivity.
      - change (Nat.iter (S k) stepped constructed)
          with (stepped (Nat.iter k stepped constructed)).
        destruct (Hstep (Nat.iter k stepped constructed)) as [x Hx].
        rewrite Hx, append_maxlen, append_len, Gm, Gl. split; lia. }
    apply G. }
  split; [apply (Hc times); [reflexivity | intros s; eexists; reflexivity] |].
  split;
    [apply (Hc separations); [reflexivity | intros s; eexists; reflexivity] |].
  split;
    [apply (Hc lyapunov); [reflexivity | intros s; eexists; reflexivity] |].
  intros i Hi.
  destruct (iter_append_len
              (fun s => steppable s /\
                        length (positions s) = length (positions constructed))
              stepped
              (fun s => nth i (trajectories s) (deque_new 0))
              (fun s => nth i (positions (stepped s)) vzero))
    with (n := n) (s := constructed) as [_ [Hm Hl]]; auto.
  - intros s [Hs Hp]. split; [apply stepped_steppable; exact Hs |].
    rewrite stepped_positions_length; assumption.
  - intros s [Hs Hp]. rewrite stepped_trajectory by exact Hs.
    rewrite Hp. unfold constructed. cbn [positions].
    rewrite recentered_length.
    destruct (Nat.ltb_spec i (length hard_coded_positions));
      [reflexivity | simpl in *; lia].
  - unfold within_capacity, len.
    destruct i as [|[|[|i]]]; simpl; lia.
  - rewrite Hl.
    destruct i as [|[|[|i]]]; try lia; reflexivity.
Qed.

(** ** Chaos analyzer: the warm-up *)

Lemma Forall_skipn {A : Type} (P : A -> Prop) (l : list A) :
  forall k : nat, Forall P l -> Forall P (skipn k l).
Proof.
  induction l as [|x l IH]; intros [|k] H; simpl; auto.
  apply IH. inversion H. assumption.
Qed.

Lemma append_all {A : Type} (P : A -> Prop) (d : deque A) (x : A) :
  Forall P (items d) -> P x -> Forall P (items (append d x)).
Proof.
  intros Hd Hx. unfold append. cbn [items]. apply Forall_skipn.
  apply Forall_app. split; [exact Hd | constructor; [exact Hx | constructor]].
Qed.

(** X17: the warm-up of the estimator across steps.  As long as the
    series of ratios holds no more than 10 samples after the step, every
    call of [update_system] records a lyapunov value of 0: starting from
    [k] samples and zeros only, the first [10 - k] steps leave nothing
    but zeros in the ['lyapunov'] series. *)
Theorem lyapunov_warm_up (n : nat) (self : ThreeBodySimulator) :
  steppable self ->
  (len (separations (chaos_data self)) + n <= 10)%nat ->
  Forall (fun v => v = 0) (items (lyapunov (chaos_data self))) ->
  exists self' : ThreeBodySimulator,
    run n self = Ok (tt, self') /\
    Forall (fun v => v = 0) (items (lyapunov (chaos_data self'))).
Proof.
  intros H Hn Hz. destruct (run_iterates n self H) as [E _].
  eexists. split; [exact E |].
  assert (G : forall k, (k <= n)%nat ->
            (len (separations (chaos_data (Nat.iter k stepped self)))
             <= len (separations (chaos_data self)) + k)%nat /\
            Forall (fun v => v = 0)
              (items (lyapunov (chaos_data (Nat.iter k stepped self))))).
  { induction k as [|k IH]; intros Hk.
    - cbn [Nat.iter nat_rect]. split; [lia | exact Hz].
    - destruct IH as [Hl Hf]; [lia |].
      change (Nat.iter (S k) stepped self)
        with (stepped (Nat.iter k stepped self)).
      set (s := Nat.iter k stepped self) in *.
      unfold stepped. cbn [chaos_data separations lyapunov].
      split.
      + rewrite append_len. lia.
      + apply append_all; [exact Hf |].
        apply estimate_short. fold (len (append (separations (chaos_data s))
          (norm
             (vsub
                (nth 1
                   (rk4_positions (force_model (masses s)) (dt s)
                      (positions s) (velocities s)) vzero)
                (nth 2
                   (rk4_positions (force_model (masses s)) (dt s)
                      (positions s) (velocities s)) vzero))
           / initial_separation s))).
        rewrite append_len. lia. }
  apply (G n). lia.
Qed.

Lemma lyapunov_warm_up_witness :
  exists self' : ThreeBodySimulator,
    run 10 sample = Ok (tt, self') /\
    Forall (fun v => v = 0) (items (lyapunov (chaos_data self'))).
Proof.
  apply (lyapunov_warm_up 10 sample).
  - exact sample_steppable.
  - unfold len. simpl. lia.
  - simpl. constructor.
Defined.

(** ** Energy monitor: numpy's special values *)

Lemma ieee_div_nonzero (a b : R) :
  b <> 0 -> Ieee.div a b = Ieee.Fin (a / b).
Proof.
  intros H. unfold Ieee.div. destruct (Req_dec_T b 0); [contradiction | auto].
Qed.

Lemma ieee_div_zero_not_finite (a : R) :
  Ieee.finite (Ieee.div a 0) = false.
Proof.
  unfold Ieee.div. destruct (Req_dec_T 0 0); [| contradiction].
  destruct (Req_dec_T a 0); [reflexivity |].
  destruct (Rlt_dec 0 a); reflexivity.
Qed.

Lemma ieee_div_zero_positive (a : R) : 0 < a -> Ieee.div a 0 = Ieee.PInf.
Proof.
  intros H. unfold Ieee.div. destruct (Req_dec_T 0 0); [| contradiction].
  destruct (Req_dec_T a 0); [lra |].
  destruct (Rlt_dec 0 a); [reflexivity | contradiction].
Qed.

Lemma ieee_sub_not_finite_l (x y : Ieee.xreal) :
  Ieee.finite x = false -> Ieee.finite (Ieee.sub x y) = false.
Proof. destruct x, y; simpl; auto. Qed.

Lemma ieee_sub_not_finite_r (x y : Ieee.xreal) :
  Ieee.finite y = false -> Ieee.finite (Ieee.sub x y) = false.
Proof. destruct x, y; simpl; auto. Qed.

Lemma ieee_add_not_finite (k : R) (y : Ieee.xreal) :
  Ieee.finite y = false -> Ieee.finite (Ieee.add (Ieee.Fin k) y) = false.
Proof. destruct y; simpl; auto. Qed.

(** Where the exact computation has a value, the computation with
    special values has the same, finite one. *)
Lemma for_in_agrees {A B : Type} (inj : A -> B)
  (body : nat -> A -> result A) (bodyx : nat -> B -> result B)
  (l : list nat) :
  (forall i st st', body i st = Ok st' -> bodyx i (inj st) = Ok (inj st')) ->
  forall st st',
    for_in l body st = Ok st' -> for_in l bodyx (inj st) = Ok (inj st').
Proof.
  intros H. induction l as [|i l IH]; intros st st' E; simpl in *.
  - inversion E. reflexivity.
  - destruct (body i st) as [st1 |] eqn:E1; [| discriminate].
    rewrite (H i st st1 E1). cbn [rbind] in *. apply IH. exact E.
Qed.

Lemma ieee_subtract_pair_agrees (m : list R) (p : array) (i j : nat)
  (potential potential' : R) :
  subtract_pair m p i j potential = Ok potential' ->
  Ieee.subtract_pair m p i j (Ieee.Fin potential) =
  Ok (Ieee.Fin potential').
Proof.
  unfold subtract_pair, Ieee.subtract_pair.
  destruct (getitem p j) as [pj |]; [| discriminate].
  destruct (getitem p i) as [pi |]; [| discriminate].
  destruct (getitem m i) as [mi |]; [| discriminate].
  destruct (getitem m j) as [mj |]; [| discriminate].
  cbn [rbind].
  destruct (np_div (G_scaled * mi * mj) (norm (vsub pj pi))) as [q |] eqn:E;
    [| discriminate].
  apply np_div_inv in E. destruct E as [Hr ->].
  cbn [rbind]. intros H. inversion H.
  rewrite ieee_div_nonzero by exact Hr. reflexivity.
Qed.

Lemma ieee_get_energy_agrees (self self' : ThreeBodySimulator) (e : R) :
  get_energy self = Ok (e, self') ->
  Ieee.get_energy self = Ok (Ieee.Fin e, self').
Proof.
  unfold get_energy, Ieee.get_energy.
  destruct (rows_scale _ _) as [mv |]; [| discriminate]. cbn [rbind].
  destruct (for_in _ (subtract_pairs_from _ _) 0) as [pot |] eqn:E;
    [| discriminate].
  cbn [rbind]. intros H. inversion H. subst.
  rewrite (for_in_agrees Ieee.Fin
             (subtract_pairs_from (masses self') (positions self'))
             (Ieee.subtract_pairs_from (masses self') (positions self'))
             _ (fun i st st' =>
                  for_in_agrees Ieee.Fin _ _ _
                    (fun j => ieee_subtract_pair_agrees _ _ i j) st st')
             0 pot E).
  reflexivity.
Qed.

Lemma ieee_get_energy_separated (self : ThreeBodySimulator) :
  well_shaped self -> separated self ->
  Ieee.get_energy self = Ok (Ieee.Fin (total_energy self), self).
Proof.
  intros Hs Hsep. apply ieee_get_energy_agrees.
  apply get_energy_ok; assumption.
Qed.

(** The loops of lines 136-139 over the special values.  [D] is a set of
    values that the accumulator stays in, [B] a part of it that the
    accumulator cannot leave and that it enters when the two bodies of a
    pair are at one position. *)
Section IeeeLoops.
Variables (m : list R) (p : array).
Hypothesis same_length : length m = length p.
Variables (D B : Ieee.xreal -> Prop).

Hypothesis stays : forall (i j : nat) (x : Ieee.xreal),
  (i < length m)%nat -> (j < length m)%nat -> D x ->
  D (Ieee.sub x
       (Ieee.div (G_scaled * nth i m 0 * nth j m 0)
          (norm (vsub (nth j p vzero) (nth i p vzero))))) /\
  (B x ->
   B (Ieee.sub x
        (Ieee.div (G_scaled * nth i m 0 * nth j m 0)
           (norm (vsub (nth j p vzero) (nth i p vzero)))))).

Hypothesis enters : forall (i j : nat) (x : Ieee.xreal),
  (i < length m)%nat -> (j < length m)%nat -> D x ->
  nth i p vzero = nth j p vzero ->
  B (Ieee.sub x
       (Ieee.div (G_scaled * nth i m 0 * nth j m 0)
          (norm (vsub (nth j p vzero) (nth i p vzero))))).

Lemma ieee_subtract_pair_value (i j : nat) (x : Ieee.xreal) :
  (i < length m)%nat -> (j < length m)%nat ->
  Ieee.subtract_pair m p i j x =
  Ok (Ieee.sub x
        (Ieee.div (G_scaled * nth i m 0 * nth j m 0)
           (norm (vsub (nth j p vzero) (nth i p vzero))))).
Proof.
  intros Hi Hj. unfold Ieee.subtract_pair.
  rewrite (getitem_ok p j vzero), (getitem_ok p i vzero) by lia.
  cbn [rbind].
  rewrite (getitem_ok m i 0), (getitem_ok m j 0) by lia.
  reflexivity.
Qed.

Lemma ieee_inner_loop (i : nat) (Hi : (i < length m)%nat) :
  forall (js : list nat) (x : Ieee.xreal),
    (forall j, In j js -> (j < length m)%nat) ->
    D x ->
    exists y : Ieee.xreal,
      for_in js (Ieee.subtract_pair m p i) x = Ok y /\
      D y /\
      (B x -> B y) /\
      ((exists j, In j js /\ nth i p vzero = nth j p vzero) -> B y).
Proof.
  induction js as [|j js IH]; intros x Hjs Hx.
  - exists x. simpl. repeat split; auto. intros [j [[] _]].
  - assert (Hj : (j < length m)%nat) by (apply Hjs; left; reflexivity).
    cbn [for_in]. rewrite ieee_subtract_pair_value by assumption.
    cbn [rbind].
    destruct (stays i j x Hi Hj Hx) as [HD HB].
    destruct (IH _ (fun k Hk => Hjs k (or_intror Hk)) HD)
      as [y [E [Dy [By Hy]]]].
    exists y. split; [exact E |]. split; [exact Dy |]. split.
    + intros Bx. apply By. apply HB. exact Bx.
    + intros [k [[<- | Hk] Hc]].
      * apply By. apply enters; assumption.
      * apply Hy. exists k. auto.
Qed.

Lemma ieee_outer_loop :
  forall (l : list nat) (x : Ieee.xreal),
    (forall i, In i l -> (i < length m)%nat) ->
    D x ->
    exists y : Ieee.xreal,
      for_in l (Ieee.subtract_pairs_from m p) x = Ok y /\
      D y /\
      (B x -> B y) /\
      ((exists i j, In i l /\ (i < j)%nat /\ (j < length m)%nat /\
                    nth i p vzero = nth j p vzero) -> B y).
Proof.
  induction l as [|i l IH]; intros x Hl Hx.
  - exists x. simpl. repeat split; auto. intros [i [j [[] _]]].
  - assert (Hi : (i < length m)%nat) by (apply Hl; left; reflexivity).
    cbn [for_in]. unfold Ieee.subtract_pairs_from at 1.
    destruct (ieee_inner_loop i Hi (range_from (i + 1) (length m)) x)
      as [x1 [E1 [D1 [B1 H1]]]]; auto.
    { intros j Hj. unfold range_from in Hj. apply in_seq in Hj. lia. }
    rewrite E1. cbn [rbind].
    destruct (IH x1 (fun k Hk => Hl k (or_intror Hk)) D1)
      as [y [E [Dy [By Hy]]]].
    exists y. split; [exact E |]. split; [exact Dy |]. split.
    + intros Bx. apply By. apply B1. exact Bx.
    + intros [k [j [[<- | Hk] [Hkj [Hj Hc]]]]].
      * apply By. apply H1. exists j. split; [| exact Hc].
        unfold range_from. apply in_seq. lia.
      * apply Hy. exists k, j. auto.
Qed.
End IeeeLoops.

(** [get_energy] returns on every well-shaped state, and what it returns
    is not a finite number when two bodies coincide. *)
Lemma ieee_get_energy_coincident (self : ThreeBodySimulator) :
  well_shaped self ->
  exists v : Ieee.xreal,
    Ieee.get_energy self = Ok (v, self) /\
    (coincident self -> Ieee.finite v = false).
Proof.
  intros [Hm Hv]. unfold Ieee.get_energy, rows_scale.
  rewrite elementwise_ok by (rewrite length_map; lia). cbn [rbind].
  destruct (ieee_outer_loop (masses self) (positions self) Hm
              (fun _ => True) (fun x => Ieee.finite x = false))
    with (l := range (length (masses self))) (x := Ieee.Fin 0)
    as [y [E [_ [_ Hy]]]]; auto.
  - intros i j x _ _ _. split; [exact I | apply ieee_sub_not_finite_l].
  - intros i j x _ _ _ Hc. apply ieee_sub_not_finite_r.
    replace (norm _) with 0; [apply ieee_div_zero_not_finite |].
    symmetry. apply norm_vsub_zero_iff. congruence.
  - intros i Hi. unfold range in Hi. apply in_seq in Hi. lia.
  - rewrite E. cbn [rbind]. eexists. split; [reflexivity |].
    intros [i [j [Hij [Hj Hc]]]]. apply ieee_add_not_finite. apply Hy.
    exists i, j. repeat split; auto. unfold range. apply in_seq. lia.
Qed.

Lemma nth_positive (m : list R) (j : nat) :
  Forall (fun x => 0 < x) m -> (j < length m)%nat -> 0 < nth j m 0.
Proof.
  intros H. revert j. induction H as [|x m Hx _ IH]; intros [|j] Hj;
    simpl in *; try lia; auto.
  apply IH. lia.
Qed.

(** With positive masses the energy of a state with two coincident
    bodies is [-inf]. *)
Lemma ieee_get_energy_minus_infinity (self : ThreeBodySimulator) :
  well_shaped self ->
  Forall (fun x => 0 < x) (masses self) ->
  coincident self ->
  Ieee.get_energy self = Ok (Ieee.NInf, self).
Proof.
  intros [Hm Hv] Hpos [i [j [Hij [Hj Hc]]]].
  unfold Ieee.get_energy, rows_scale.
  rewrite elementwise_ok by (rewrite length_map; lia). cbn [rbind].
  assert (Hnum : forall a b, (a < length (masses self))%nat ->
                             (b < length (masses self))%nat ->
                             0 < G_scaled * nth a (masses self) 0
                                 * nth b (masses self) 0).
  { intros a b Ha Hb. pose proof G_scaled_pos.
    pose proof (nth_positive _ a Hpos Ha).
    pose proof (nth_positive _ b Hpos Hb).
    apply Rmult_lt_0_compat; [apply Rmult_lt_0_compat |]; assumption. }
  destruct (ieee_outer_loop (masses self) (positions self) Hm
              (fun x => x = Ieee.NInf \/ exists r, x = Ieee.Fin r)
              (fun x => x = Ieee.NInf))
    with (l := range (length (masses self))) (x := Ieee.Fin 0)
    as [y [E [_ [_ Hy]]]].
  - intros a b x Ha Hb Hx.
    destruct (Req_dec_T
                (norm (vsub (nth b (positions self) vzero)
                         (nth a (positions self) vzero))) 0) as [E0 | E0].
    + rewrite E0, ieee_div_zero_positive by (apply Hnum; assumption).
      destruct Hx as [-> | [r ->]]; simpl; auto.
    + rewrite ieee_div_nonzero by exact E0.
      destruct Hx as [-> | [r ->]]; simpl; split; eauto.
      discriminate.
  - intros a b x Ha Hb Hx Hab.
    replace (norm _) with 0
      by (symmetry; apply norm_vsub_zero_iff; congruence).
    rewrite ieee_div_zero_positive by (apply Hnum; assumption).
    destruct Hx as [-> | [r ->]]; reflexivity.
  - intros a Ha. unfold range in Ha. apply in_seq in Ha. lia.
  - right. eauto.
  - rewrite E. cbn [rbind]. rewrite Hy; [reflexivity |].
    exists i, j. repeat split; auto. unfold range. apply in_seq. lia.
Qed.

(** C10, as the claim has it, fails: [get_energy] is not partial.  In
    [collided] bodies 0 and 1 are at the same position, the division of
    line 139 is by a distance of zero, and the method returns all the
    same: its value is [-inf]. *)
Lemma get_energy_returns_minus_infinity :
  coincident collided /\
  Ieee.get_energy collided = Ok (Ieee.NInf, collided).
Proof.
  split; [exact collided_coincident |].
  apply ieee_get_energy_minus_infinity.
  - split; reflexivity.
  - simpl. repeat constructor; lra.
  - exact collided_coincident.
Qed.

(** C10, amended: the division of [get_energy] is unguarded but the
    method is total.  On every well-shaped state it returns; the value is
    the finite energy (kinetic plus unsoftened potential) when all
    pairwise distances are different from zero, and when two distinct
    bodies are at exactly the same position it is not a finite number
    ([inf], [-inf] or [nan]; [-inf] when the masses are positive), the
    division by zero being reached without an exception. *)
Theorem get_energy_unguarded (self : ThreeBodySimulator) :
  well_shaped self ->
  (exists v : Ieee.xreal, Ieee.get_energy self = Ok (v, self)) /\
  (separated self ->
   Ieee.get_energy self =
   Ok (Ieee.Fin (kinetic_energy (masses self) (velocities self) +
                 potential_energy (masses self) (positions self)), self)) /\
  (coincident self ->
   exists v : Ieee.xreal,
     Ieee.get_energy self = Ok (v, self) /\ Ieee.finite v = false) /\
  (coincident self ->
   Forall (fun x => 0 < x) (masses self) ->
   Ieee.get_energy self = Ok (Ieee.NInf, self)) /\
  (separated self <->
   forall i j : nat,
     (i < j)%nat -> (j < length (masses self))%nat ->
     norm (vsub (nth j (positions self) vzero)
             (nth i (positions self) vzero)) <> 0).
Proof.
  intros Hs. destruct (ieee_get_energy_coincident self Hs) as [v [E Hv]].
  split; [eauto |]. split; [| split; [| split]].
  - apply ieee_get_energy_separated. exact Hs.
  - intros Hco. exists v. auto.
  - intros Hco Hpos. apply ieee_get_energy_minus_infinity; assumption.
  - split.
    + intros Hsep i j Hij Hj H. apply norm_vsub_zero_iff in H.
      apply (Hsep i j Hij Hj). congruence.
    + intros H i j Hij Hj He. apply (H i j Hij Hj).
      apply norm_vsub_zero_iff. congruence.
Qed.

Lemma get_energy_unguarded_witness :
  Ieee.get_energy sample =
  Ok (Ieee.Fin (kinetic_energy (masses sample) (velocities sample) +
                potential_energy (masses sample) (positions sample)),
      sample).
Proof.
  apply (proj1 (proj2 (get_energy_unguarded sample sample_well_shaped))).
  exact sample_separated.
Defined.

(** ** The animation driver *)

Lemma repeated_update_system (n : nat) :
  forall (a : nat) (s : ThreeBodySimulator),
    for_in (seq a n) (fun _ s0 => '(_, s') <~ update_system s0 ;; Ok s') s =
    ('(_, s') <~ run n s ;; Ok s').
Proof.
  induction n as [|n IH]; intros a s.
  - reflexivity.
  - cbn [seq for_in run]. unfold bind at 1.
    destruct (update_system s) as [[[] s1] | e]; cbn [rbind]; [| reflexivity].
    apply IH.
Qed.

Lemma three_reads_ok {A : Type} (l : list A) :
  (3 <= length l)%nat ->
  for_in (range 3) (fun i u => _ <~ getitem l i ;; Ok u) tt = Ok tt.
Proof.
  intros H. destruct l as [|a [|b [|c l]]]; simpl in H; try lia.
  reflexivity.
Qed.

Lemma three_speeds_ok (v : array) (d0 d1 d2 : deque R) :
  (3 <= length v)%nat ->
  for_in (range 3) (fun i velocity_data =>
    x <~ getitem v i ;;
    let speed := speed_of x in
    d <~ getitem velocity_data i ;;
    setitem velocity_data i (append d speed)) [d0; d1; d2] =
  Ok [append d0 (speed_of (nth 0 v vzero));
      append d1 (speed_of (nth 1 v vzero));
      append d2 (speed_of (nth 2 v vzero))].
Proof.
  intros H. destruct v as [|a [|b [|c v]]]; simpl in H; try lia.
  reflexivity.
Qed.

(** X18: one animation frame.  [animate] advances the simulator by
    exactly 50 calls of [update_system] and then appends one sample to
    each buffer: the time in years, the value of [get_energy] on the new
    state, and for each of the three bodies its speed
    |v| * (365.25 * DAY) / AU.  The energy sample is the total energy of
    the new state when no two bodies coincide, and a value that is not a
    finite number when two do; the frame completes in both cases. *)
Theorem animate_one_frame (frame : nat) (g : globals) (d0 d1 d2 : deque R) :
  steppable (sim g) ->
  velocity_data g = [d0; d1; d2] ->
  exists (s' : ThreeBodySimulator) (e : Ieee.xreal),
    run 50 (sim g) = Ok (tt, s') /\
    time s' = time (sim g) + 50 * dt (sim g) /\
    animate frame g =
    Ok (Globals s'
          (append (energy_times g) (time s' / (DAY * 365.25)))
          (append (energy_values g) e)
          (append (velocity_times g) (time s' / (DAY * 365.25)))
          [append d0 (speed_of (nth 0 (velocities s') vzero));
           append d1 (speed_of (nth 1 (velocities s') vzero));
           append d2 (speed_of (nth 2 (velocities s') vzero))]) /\
    (separated s' -> e = Ieee.Fin (total_energy s')) /\
    (coincident s' -> Ieee.finite e = false).
Proof.
  intros H Hvd. destruct (run_iterates 50 (sim g) H) as [E Hs].
  set (s' := Nat.iter 50 stepped (sim g)) in *.
  destruct (ieee_get_energy_coincident s') as [e [Ee He]]; [apply Hs |].
  exists s', e. split; [exact E |]. split.
  { destruct (iter_stepped_frame 50 (sim g)) as [_ [_ [_ [_ [_ [_ Ht]]]]]].
    fold s' in Ht. rewrite Ht. rewrite INR_IZR_INZ. simpl. lra. }
  split; [| split; [| exact He]].
  - unfold animate. unfold range at 1.
    rewrite repeated_update_system, E. cbn [rbind].
    destruct Hs as [[Hm Hv] [H3 [Ht _]]].
    rewrite !three_reads_ok by lia. cbn [rbind].
    rewrite Ee. cbn [rbind].
    rewrite Hvd, three_speeds_ok by lia. reflexivity.
  - intros Hsep.
    rewrite ieee_get_energy_separated in Ee by (auto; apply Hs).
    inversion Ee. reflexivity.
Qed.

Lemma animate_one_frame_witness :
  exists (s' : ThreeBodySimulator) (e : Ieee.xreal),
    run 50 sample = Ok (tt, s') /\
    time s' = time sample + 50 * dt sample /\
    animate 0 (first_frame sample) =
    Ok (Globals s'
          (append (deque_new 2000) (time s' / (DAY * 365.25)))
          (append (deque_new 2000) e)
          (append (deque_new 2000) (time s' / (DAY * 365.25)))
          [append (deque_new 2000) (speed_of (nth 0 (velocities s') vzero));
           append (deque_new 2000) (speed_of (nth 1 (velocities s') vzero));
           append (deque_new 2000)
             (speed_of (nth 2 (velocities s') vzero))]) /\
    (separated s' -> e = Ieee.Fin (total_energy s')) /\
    (coincident s' -> Ieee.finite e = false).
Proof.
  apply (animate_one_frame 0 (first_frame sample)
           (deque_new 2000) (deque_new 2000) (deque_new 2000)).
  - exact sample_steppable.
  - reflexivity.
Defined.

(** ** Energy monitor: only relative positions matter *)

Lemma in_pairs (n i j : nat) :
  In (i, j) (pairs n) -> (i < j)%nat /\ (j < n)%nat.
Proof.
  unfold pairs, range, range_from. intros H.
  apply in_flat_map in H. destruct H as [a [Ha H]].
  apply in_map_iff in H. destruct H as [b [Hb H]].
  inversion Hb. subst. apply in_seq in Ha. apply in_seq in H. lia.
Qed.

Lemma potential_energy_shifted (m : list R) (p : array) (c : vec2) :
  (length m <= length p)%nat ->
  potential_energy m (map (fun q => vsub q c) p) = potential_energy m p.
Proof.
  intros H. unfold potential_energy. apply np_sum_map_ext.
  intros [i j] Hij. apply in_pairs in Hij.
  unfold pair_potential. cbn [fst snd].
  rewrite !nth_shifted by lia.
  replace (vsub (vsub (nth i p vzero) c) (vsub (nth j p vzero) c))
    with (vsub (nth i p vzero) (nth j p vzero))
    by (apply vec2_eq; simpl; ring).
  reflexivity.
Qed.

(** X19: the energy depends on the positions only through their
    differences: moving every body by the same vector [c] leaves the
    value of [get_energy] unchanged. *)
Theorem get_energy_translation_invariant
  (self : ThreeBodySimulator) (c : vec2) :
  well_shaped self ->
  separated self ->
  let moved :=
    set_positions (map (fun q => vsub q c) (positions self)) self in
  exists e : R,
    get_energy self = Ok (e, self) /\
    get_energy moved = Ok (e, moved).
Proof.
  intros Hs Hsep moved. pose proof Hs as [Hm Hv].
  assert (Hs' : well_shaped moved).
  { split; unfold moved; cbn [masses positions velocities set_positions];
      rewrite length_map; assumption. }
  assert (Hsep' : separated moved).
  { unfold separated, moved. cbn [masses positions set_positions].
    intros i j Hij Hj. rewrite !nth_shifted by lia.
    intros E. apply (Hsep i j Hij Hj).
    apply vec2_eq.
    - apply (f_equal vx) in E. simpl in E. lra.
    - apply (f_equal vy) in E. simpl in E. lra. }
  rewrite (get_energy_ok self Hs Hsep), (get_energy_ok moved Hs' Hsep').
  eexists. split; [reflexivity |]. do 2 f_equal.
  unfold total_energy, moved. cbn [masses positions velocities set_positions].
  rewrite potential_energy_shifted by lia. reflexivity.
Qed.

Lemma get_energy_translation_invariant_witness :
  exists e : R,
    get_energy sample = Ok (e, sample) /\
    get_energy
      (set_positions (map (fun q => vsub q (V2 7 (-2))) (positions sample))
         sample) =
    Ok (e,
        set_positions (map (fun q => vsub q (V2 7 (-2))) (positions sample))
          sample).
Proof.
  apply (get_energy_translation_invariant sample (V2 7 (-2))).
  - exact sample_well_shaped.
  - exact sample_separated.
Defined.

(** ** RK4 integrator: a zero time step *)

Lemma arr_plus_zero_scaled (a : array) :
  forall b : array,
    (length a <= length b)%nat -> arr_plus a (arr_scale 0 b) = a.
Proof.
  unfold arr_plus, arr_scale.
  induction a as [|x a IH]; intros [|y b] H; simpl in *; try lia; auto.
  rewrite IH by lia. f_equal. apply vec2_eq; simpl; ring.
Qed.

(** X20: a zero time step moves nothing.  With [dt] = 0 a call of
    [update_system] returns with the positions, the velocities and the
    time it found; only the buffers receive their record. *)
Theorem update_system_zero_step (self : ThreeBodySimulator) :
  steppable self ->
  dt self = 0 ->
  exists self' : ThreeBodySimulator,
    update_system self = Ok (tt, self') /\
    positions self' = positions self /\
    velocities self' = velocities self /\
    time self' = time self.
Proof.
  intros H H0. rewrite update_system_stepped by exact H.
  eexists. split; [reflexivity |].
  destruct H as [[Hm Hv] _].
  unfold stepped. cbn [positions velocities time].
  unfold rk4_positions, rk4_velocities. rewrite H0.
  replace (0 / 6) with 0 by field.
  rewrite !arr_plus_zero_scaled by shapes.
  repeat split. ring.
Qed.

Lemma update_system_zero_step_witness :
  exists self' : ThreeBodySimulator,
    update_system frozen = Ok (tt, self') /\
    positions self' = positions frozen /\
    velocities self' = velocities frozen /\
    time self' = time frozen.
Proof.
  apply (update_system_zero_step frozen).
  - unfold steppable, well_shaped, frozen, sample. simpl.
    repeat split; try lia. lra.
  - reflexivity.
Defined.

(** ** Force model: the acceleration of a body is bounded *)

Lemma norm_triangle (a b : vec2) : norm (vadd a b) <= norm a + norm b.
Proof.
  pose proof (norm_nonneg a) as Ha. pose proof (norm_nonneg b) as Hb.
  pose proof (norm_square a) as Sa. pose proof (norm_square b) as Sb.
  pose proof (norm_square (vadd a b)) as Sab. cbn [vadd vx vy] in Sab.
  set (u := norm a) in *. set (v := norm b) in *.
  set (w := norm (vadd a b)) in *.
  assert (Hdot : vx a * vx b + vy a * vy b <= u * v).
  { apply Rsqr_incr_0_var; [| nra].
    unfold Rsqr.
    replace (u * v * (u * v)) with (u ^ 2 * v ^ 2) by ring.
    rewrite Sa, Sb.
    pose proof (Rle_0_sqr (vx a * vy b - vy a * vx b)) as Hsq.
    unfold Rsqr in Hsq.
    replace ((vx a ^ 2 + vy a ^ 2) * (vx b ^ 2 + vy b ^ 2))
      with ((vx a * vx b + vy a * vy b) * (vx a * vx b + vy a * vy b)
            + (vx a * vy b - vy a * vx b) * (vx a * vy b - vy a * vx b))
      by ring.
    lra. }
  apply Rsqr_incr_0_var; [| nra].
  unfold Rsqr. nra.
Qed.

Lemma norm_vzero : norm vzero = 0.
Proof. apply norm_zero_iff. reflexivity. Qed.

Lemma norm_sum_axis0 (l : array) : norm (sum_axis0 l) <= np_sum (map norm l).
Proof.
  induction l as [|x l IH].
  - simpl. rewrite norm_vzero. lra.
  - change (norm (vadd x (sum_axis0 l)) <= norm x + np_sum (map norm l)).
    pose proof (norm_triangle x (sum_axis0 l)). lra.
Qed.

Lemma pair_term_bound (m : list R) (p : array) (i j : nat) :
  0 <= nth j m 0 ->
  norm (pair_term m p i j) <= G_scaled * nth j m 0 / softening ^ 2.
Proof.
  intros Hmj. unfold pair_term. cbv zeta.
  set (r := norm (vsub (nth j p vzero) (nth i p vzero))).
  set (mj := nth j m 0) in *.
  assert (Hr : 0 <= r) by apply norm_nonneg.
  pose proof (softened_cube_nonzero r) as Hd.
  pose proof (softened_distance_pos r) as Hs.
  pose proof G_scaled_pos as HG.
  assert (Hd3 : 0 < sqrt (r ^ 2 + softening ^ 2) ^ 3)
    by (apply pow_lt; exact Hs).
  assert (Hc : 0 <= G_scaled * mj / sqrt (r ^ 2 + softening ^ 2) ^ 3).
  { apply Rmult_le_pos; [nra |]. left. apply Rinv_0_lt_compat. exact Hd3. }
  rewrite norm_vscale. fold r. rewrite (Rabs_pos_eq _ Hc).
  pose proof (softened_kernel_bound r Hr) as Hk.
  replace (G_scaled * mj / sqrt (r ^ 2 + softening ^ 2) ^ 3 * r)
    with (G_scaled * mj * (r / sqrt (r ^ 2 + softening ^ 2) ^ 3))
    by (field; lra).
  replace (G_scaled * mj / softening ^ 2)
    with (G_scaled * mj * (1 / softening ^ 2))
    by (field; pose proof softening_pos; lra).
  apply Rmult_le_compat_l; [nra | exact Hk].
Qed.

Lemma nth_nonneg (m : list R) (j : nat) :
  Forall (fun x => 0 <= x) m -> 0 <= nth j m 0.
Proof.
  intros H. revert j. induction H as [|x m Hx _ IH]; intros [|j]; simpl;
    auto; lra.
Qed.

Lemma np_sum_indexed (m : list R) :
  np_sum (map (fun j => nth j m 0) (seq 0 (length m))) = np_sum m.
Proof.
  induction m as [|x m IH]; simpl; auto.
  rewrite <- seq_shift, map_map. simpl. rewrite IH. reflexivity.
Qed.

Lemma np_sum_le {A : Type} (f g : A -> R) (l : list A) :
  (forall x, In x l -> f x <= g x) ->
  np_sum (map f l) <= np_sum (map g l).
Proof.
  induction l as [|x l IH]; intros H; [simpl; lra |].
  pose proof (H x (or_introl eq_refl)).
  assert (np_sum (map f l) <= np_sum (map g l))
    by (apply IH; intros y Hy; apply H; right; exact Hy).
  change (f x + np_sum (map f l) <= g x + np_sum (map g l)). lra.
Qed.

Lemma np_sum_filter_le (f : nat -> R) (keep : nat -> bool) (l : list nat) :
  (forall j, 0 <= f j) ->
  np_sum (map f (filter keep l)) <= np_sum (map f l).
Proof.
  intros Hf. induction l as [|j l IH]; [simpl; lra |].
  pose proof (Hf j). cbn [filter]. destruct (keep j).
  - change (f j + np_sum (map f (filter keep l)) <=
            f j + np_sum (map f l)). lra.
  - change (np_sum (map f (filter keep l)) <= f j + np_sum (map f l)). lra.
Qed.

(** X21: with non-negative masses, every acceleration that
    [compute_accelerations] returns is bounded, whatever the positions
    (coincident bodies included): its magnitude is at most
    G_scaled * (total mass) / eps^2. *)
Theorem accelerations_bounded (self : ThreeBodySimulator) :
  length (masses self) = length (positions self) ->
  Forall (fun x => 0 <= x) (masses self) ->
  exists acc : array,
    compute_accelerations self = Ok (acc, self) /\
    forall i : nat,
      (i < length (positions self))%nat ->
      norm (nth i acc vzero) <=
      G_scaled * np_sum (masses self) / softening ^ 2.
Proof.
  intros Hm Hpos. rewrite compute_accelerations_ok by lia.
  eexists. split; [reflexivity |]. intros i Hi.
  rewrite nth_force_model by exact Hi. unfold force_row.
  eapply Rle_trans; [apply norm_sum_axis0 |]. rewrite map_map.
  eapply Rle_trans.
  { apply (np_sum_le _
             (fun j => G_scaled * nth j (masses self) 0 / softening ^ 2)).
    intros j _. apply pair_term_bound. apply nth_nonneg. exact Hpos. }
  assert (Hterm : forall j,
            0 <= G_scaled * nth j (masses self) 0 / softening ^ 2).
  { intros j. pose proof G_scaled_pos. pose proof softening_pos.
    pose proof (nth_nonneg _ j Hpos).
    apply Rmult_le_pos; [nra |]. left. apply Rinv_0_lt_compat. nra. }
  eapply Rle_trans.
  { unfold others. apply np_sum_filter_le. exact Hterm. }
  unfold range. rewrite <- Hm.
  rewrite (np_sum_map_ext _
             (fun j => G_scaled / softening ^ 2 * nth j (masses self) 0)).
  2: { intros j _. field. pose proof softening_pos. lra. }
  rewrite np_sum_map_scale, np_sum_indexed. right. field.
  pose proof softening_pos. lra.
Qed.

Lemma accelerations_bounded_witness :
  exists acc : array,
    compute_accelerations collided = Ok (acc, collided) /\
    forall i : nat,
      (i < length (positions collided))%nat ->
      norm (nth i acc vzero) <=
      G_scaled * np_sum (masses collided) / softening ^ 2.
Proof.
  apply (accelerations_bounded collided).
  - reflexivity.
  - simpl. repeat constructor; lra.
Defined.

(** ** Determinism: what a trajectory depends on *)

Lemma iter_stepped_trajectory (n : nat) (self : ThreeBodySimulator) :
  (positions (Nat.iter n stepped self),
   velocities (Nat.iter n stepped self)) =
  Nat.iter n (rk4_map (masses self) (dt self))
    (positions self, velocities self).
Proof.
  induction n as [|n IH]; [reflexivity |].
  change (Nat.iter (S n) stepped self)
    with (stepped (Nat.iter n stepped self)).
  change (Nat.iter (S n) (rk4_map (masses self) (dt self))
            (positions self, velocities self))
    with (rk4_map (masses self) (dt self)
            (Nat.iter n (rk4_map (masses self) (dt self))
               (positions self, velocities self))).
  rewrite <- IH.
  destruct (iter_stepped_frame n self) as [Hm [Hd _]].
  set (s := Nat.iter n stepped self) in *.
  unfold stepped, rk4_map. cbn [positions velocities fst snd].
  rewrite Hm, Hd. reflexivity.
Qed.

(** C8: determinism.  Two simulators that are equal attribute for
    attribute give the same outcome after the same number [n] of calls of
    [update_system].  The calls read no input besides the object, and of
    the object the trajectory reads only the masses, the positions, the
    velocities and [dt]: from two steppable objects that agree on these
    four (whatever their time, buffers and chaos series hold), the [n]
    calls return, and the positions and velocities reached are the same
    for both, namely the [n]-th iterate of the RK4 map for these masses
    and this [dt] on the initial positions and velocities. *)
Theorem update_system_deterministic (n : nat) (s1 s2 : ThreeBodySimulator) :
  (s1 = s2 -> run n s1 = run n s2) /\
  (steppable s1 -> steppable s2 -> same_physics s1 s2 ->
   exists s1' s2' : ThreeBodySimulator,
     run n s1 = Ok (tt, s1') /\
     run n s2 = Ok (tt, s2') /\
     (positions s1', velocities s1') =
       Nat.iter n (rk4_map (masses s1) (dt s1))
         (positions s1, velocities s1) /\
     positions s2' = positions s1' /\
     velocities s2' = velocities s1' /\
     (s1 = s2 -> s1' = s2')).
Proof.
  split; [intros <-; reflexivity |].
  intros H1 H2 [Hm [Hp [Hv Hd]]].
  destruct (run_iterates n s1 H1) as [E1 _].
  destruct (run_iterates n s2 H2) as [E2 _].
  exists (Nat.iter n stepped s1), (Nat.iter n stepped s2).
  split; [exact E1 |]. split; [exact E2 |].
  pose proof (iter_stepped_trajectory n s1) as T1.
  pose proof (iter_stepped_trajectory n s2) as T2.
  rewrite <- Hm, <- Hp, <- Hv, <- Hd in T2. rewrite <- T1 in T2.
  split; [exact T1 |].
  inversion T2 as [[Tp Tv]].
  split; [reflexivity |]. split; [reflexivity |].
  intros <-. reflexivity.
Qed.

Lemma update_system_deterministic_witness :
  exists s1' s2' : ThreeBodySimulator,
    run 50 sample = Ok (tt, s1') /\
    run 50 (set_time 7 sample) = Ok (tt, s2') /\
    (positions s1', velocities s1') =
      Nat.iter 50 (rk4_map (masses sample) (dt sample))
        (positions sample, velocities sample) /\
    positions s2' = positions s1' /\
    velocities s2' = velocities s1' /\
    (sample = set_time 7 sample -> s1' = s2').
Proof.
  apply (proj2 (update_system_deterministic 50 sample (set_time 7 sample))).
  - exact sample_steppable.
  - unfold steppable, well_shaped, sample. simpl.
    repeat split; try lia. lra.
  - repeat split.
Defined.
